(** * auto-sort-script: the Downloads sorter of [main.py]

    A shallow embedding of [SortingHandler] (on_modified, sort_files,
    get_unique_path, move_file) over a small model of the file system
    below [DOWNLOADS_DIR], and the properties of the specification
    proved or refuted on it.

    Layout:
    - Python strings: [startswith], [lower], [os.path.splitext];
    - the file tree, the world (tree, order of listings, refusals of the
      operating system, printed lines) and the state-and-exception monad
      the handler runs in;
    - the library calls the handler makes ([os.listdir], [os.path.isdir],
      [os.path.exists], [os.makedirs], [shutil.move], [print]);
    - the handler itself, function by function;
    - the handler as a relation on the entries of [DOWNLOADS_DIR], which
      the functions are shown to refine and the invariants are proved on;
    - the theorems: strings, collision resolution, classification, the
      frame of a rescan, the way of a file to its category, failures,
      notifications, a second rescan, and the scenarios of the
      specification run on small trees.

    The handler is single-threaded and the model is too: nothing else
    changes the tree during a rescan. *)

From Stdlib Require Import Ascii.
From stdpp Require Import gmap strings list fin_maps pretty.

Set Warnings "-register-all".

(** ** Python strings

    File names are strings of characters with code points below 256, on
    which [str.lower] moves the capital letters (A-Z, and U+00C0 to
    U+00DE but for the multiplication sign U+00D7) up by 32 and leaves
    the rest. *)

Module PyStr.

(** [s.startswith(prefix)] *)
Definition startswith (prefix s : string) : bool := String.prefix prefix s.

Definition lower_char (c : ascii) : ascii :=
  let n := nat_of_ascii c in
  if ((65 <=? n) && (n <=? 90) || (192 <=? n) && (n <=? 222) && negb (n =? 215))%nat
  then ascii_of_nat (n + 32) else c.

(** [s.lower()] *)
Fixpoint lower (s : string) : string :=
  match s with
  | EmptyString => EmptyString
  | String c s' => String (lower_char c) (lower s')
  end.

(** [s.rfind(c)] for a one-character [c]; [None] stands for [-1]. *)
Fixpoint rfind (c : ascii) (s : string) : option nat :=
  match s with
  | EmptyString => None
  | String a s' =>
      match rfind c s' with
      | Some i => Some (S i)
      | None => if Ascii.eqb a c then Some 0%nat else None
      end
  end.

(** Is every character of [s] equal to [c]? *)
Fixpoint all_eq (c : ascii) (s : string) : bool :=
  match s with
  | EmptyString => true
  | String a s' => Ascii.eqb a c && all_eq c s'
  end.

(** [s[i:j]] for [0 <= i <= j]. *)
Definition slice (i j : nat) (s : string) : string := String.substring i (j - i) s.

(** [os.path.splitext] of posixpath: the extension starts at the last
    dot of the last path component, unless that component consists of
    dots up to there (a leading dot does not start an extension). *)
Definition splitext (p : string) : string * string :=
  let filenameIndex :=
    match rfind "/" p with Some sepIndex => S sepIndex | None => 0%nat end in
  match rfind "." p with
  | Some dotIndex =>
      if (filenameIndex <=? dotIndex)%nat
         && negb (all_eq "." (slice filenameIndex dotIndex p))
      then (slice 0 dotIndex p, slice dotIndex (String.length p) p)
      else (p, "")
  | None => (p, "")
  end.

End PyStr.

(** ** The file tree *)

Inductive node :=
  | File (data : string)
  | Dir (children : gmap string node).

(** A path is the list of its components below [DOWNLOADS_DIR]. *)
Definition path := list string.

Definition DOWNLOADS_DIR : path := [].

(** [os.path.join(p, name)] for a one-component [name]. *)
Definition os_path_join (p : path) (name : string) : path := p ++ [name].

(** [os.path.basename(p)] *)
Definition os_path_basename (p : path) : string := default "" (last p).

(** What is raised: an [OSError], by its errno, or the
    [UnicodeEncodeError] of a [print]. *)
Inductive oserror :=
  | ENOENT | ENOTDIR | EEXIST | EISDIR | ENOTEMPTY | EINVAL
  | EACCES | EXDEV | ENOSPC | EPIPE | UnicodeEncodeError.

(** What the operating system may refuse: to make the directory [p],
    to move [src] to [dst] (the rename, and with it the copy that
    [shutil.move] falls back to), and to write a line that shows
    [filename] to the standard output (its encoding has no code for a
    character of the name, or it is closed). *)
Inductive syscall :=
  | SysMkdir (p : path)
  | SysRename (src dst : path)
  | SysPrint (filename : string).

(** What [print] wrote: line 109 and line 111 of main.py. *)
Inductive line :=
  | Moved (filename basename : string)
  | MoveError (filename : string) (e : oserror).

(** The file name a line shows. *)
Definition line_name (l : line) : string :=
  match l with
  | Moved filename _ => filename
  | MoveError filename _ => filename
  end.

(** The world the handler runs in.  [disk] is the object [DOWNLOADS_DIR]
    names ([None]: nothing is there); it holds files and directories, no
    symbolic links.  [listing] is the order in which [os.listdir] gives
    the entries of a directory, which Python leaves open.  [refuses] is
    what the operating system refuses for a reason the tree does not show
    (permissions, a full or a different device, the encoding of the
    standard output).  Neither changes during a run. *)
Record world := World {
  disk : option node;
  listing : gmap string node → list string;
  refuses : syscall → option oserror;
  stdout : list line;
}.

Definition set_disk (d : option node) (w : world) : world :=
  {| disk := d; listing := listing w; refuses := refuses w; stdout := stdout w |}.

Definition add_line (l : line) (w : world) : world :=
  {| disk := disk w; listing := listing w; refuses := refuses w;
     stdout := stdout w ++ [l] |}.

(** Walking down from an object: the object at [p], or the errno [stat]
    gives. *)
Fixpoint fs_walk (p : path) (d : option node) : oserror + node :=
  match d with
  | None => inl ENOENT
  | Some n =>
      match p with
      | [] => inr n
      | x :: p' =>
          match n with
          | Dir m => fs_walk p' (m !! x)
          | File _ => inl ENOTDIR
          end
      end
  end.

Definition fs_lookup (p : path) (d : option node) : option node :=
  match fs_walk p d with inr n => Some n | inl _ => None end.

(** Replacing what is at [p] by [v] ([None] removes it); fails when the
    parent of [p] is not a directory. *)
Fixpoint fs_put (p : path) (v : option node) (d : option node) : option (option node) :=
  match p with
  | [] => Some v
  | x :: p' =>
      match d with
      | Some (Dir m) =>
          match fs_put p' v (m !! x) with
          | Some (Some n) => Some (Some (Dir (<[x := n]> m)))
          | Some None => Some (Some (Dir (delete x m)))
          | None => None
          end
      | _ => None
      end
  end.

(** ** The monad: state passing with exceptions

    A computation either returns, raises, or exhausts the budget of a
    [while] loop; the world it leaves behind is kept in all three
    cases, as effects before a [raise] are. *)

Inductive result (A : Type) :=
  | Ok (a : A)
  | Raise (e : oserror)
  | OutOfFuel.
Arguments Ok {A} a.
Arguments Raise {A} e.
Arguments OutOfFuel {A}.

Definition M (A : Type) : Type := world → result A * world.

Definition ret {A} (a : A) : M A := λ w, (Ok a, w).

Definition bind {A B} (m : M A) (k : A → M B) : M B :=
  λ w, match m w with
       | (Ok a, w') => k a w'
       | (Raise e, w') => (Raise e, w')
       | (OutOfFuel, w') => (OutOfFuel, w')
       end.

Definition raise {A} (e : oserror) : M A := λ w, (Raise e, w).

(** [try: body except Exception as e: handler(e)] *)
Definition try_except {A} (body : M A) (handler : oserror → M A) : M A :=
  λ w, match body w with
       | (Raise e, w') => handler e w'
       | r => r
       end.

Notation "'do' x <- m ; k" := (bind m (λ x, k))
  (at level 10, x name, m at level 100, k at level 200).
Notation "m ;; k" := (bind m (λ _, k))
  (at level 100, k at level 200, right associativity).

(** ** The library calls *)

(** The names of the entries, in the order of the map. *)
Definition keys (m : gmap string node) : list string := (map_to_list m).*1.

(** [listing] gives every entry once. *)
Definition faithful (w : world) : Prop := ∀ m, listing w m ≡ₚ keys m.

(** [os.listdir(p)]: raises when nothing is at [p], or no directory.
    A directory of this world can be listed. *)
Definition os_listdir (p : path) : M (list string) :=
  λ w, match fs_walk p (disk w) with
       | inr (Dir m) => (Ok (listing w m), w)
       | inr (File _) => (Raise ENOTDIR, w)
       | inl e => (Raise e, w)
       end.

Definition is_dir (p : path) (w : world) : bool :=
  match fs_lookup p (disk w) with Some (Dir _) => true | _ => false end.

Definition path_exists (p : path) (w : world) : bool :=
  match fs_lookup p (disk w) with Some _ => true | None => false end.

(** [os.path.isdir(p)] *)
Definition os_path_isdir (p : path) : M bool := λ w, (Ok (is_dir p w), w).

(** [os.path.exists(p)] *)
Definition os_path_exists (p : path) : M bool := λ w, (Ok (path_exists p w), w).

(** [print(...)]: raises when the standard output does not take the
    text.  Both lines show the file name; what they show besides (the
    basename of line 109, which is the name with a counter added, and
    the message of the error) is taken to be written whenever the name
    is, so the name decides for both lines. *)
Definition print (l : line) : M unit :=
  λ w, match refuses w (SysPrint (line_name l)) with
       | Some e => (Raise e, w)
       | None => (Ok tt, add_line l w)
       end.

(** [time.sleep(1)]: no effect on the world. *)
Definition time_sleep : M unit := ret tt.

Definition parent (p : path) : path := removelast p.

(** [os.mkdir(p)] *)
Definition os_mkdir (p : path) : M unit :=
  λ w, match fs_lookup p (disk w) with
       | Some _ => (Raise EEXIST, w)
       | None =>
           match p, fs_walk (parent p) (disk w) with
           | _ :: _, inl e => (Raise e, w)
           | _ :: _, inr (File _) => (Raise ENOTDIR, w)
           | _, _ =>
               match refuses w (SysMkdir p) with
               | Some e => (Raise e, w)
               | None =>
                   match fs_put p (Some (Dir ∅)) (disk w) with
                   | Some d' => (Ok tt, set_disk d' w)
                   | None => (Raise ENOTDIR, w)
                   end
               end
           end
       end.

(** [os.makedirs(p)]: the missing ancestors first, [done] being the part
    of the path already walked; the leaf must not exist. *)
Fixpoint os_makedirs_from (done : path) (todo : list string) : M unit :=
  match todo with
  | [] => os_mkdir done
  | x :: todo' =>
      do there <- os_path_exists done;
      (if there then ret tt else os_mkdir done);;
      os_makedirs_from (done ++ [x]) todo'
  end.

Definition os_makedirs (p : path) : M unit := os_makedirs_from [] p.

(** [os.rename(src, dst)] of POSIX: [dst] is replaced when it is a file
    (or an empty directory, for a directory [src]). *)
Definition os_rename (src dst : path) : M unit :=
  λ w, match fs_walk src (disk w) with
       | inl e => (Raise e, w)
       | inr n =>
           match fs_walk (parent dst) (disk w) with
           | inl e => (Raise e, w)
           | inr (File _) => (Raise ENOTDIR, w)
           | inr (Dir _) =>
               if bool_decide (src = dst) then (Ok tt, w) else
               match n, fs_lookup dst (disk w) with
               | File _, Some (Dir _) => (Raise EISDIR, w)
               | Dir _, Some (File _) => (Raise ENOTDIR, w)
               | Dir _, Some (Dir m) =>
                   if bool_decide (m = ∅) then
                     match refuses w (SysRename src dst) with
                     | Some e => (Raise e, w)
                     | None =>
                         match fs_put src None (disk w) ≫= fs_put dst (Some n) with
                         | Some d' => (Ok tt, set_disk d' w)
                         | None => (Raise EINVAL, w)
                         end
                     end
                   else (Raise ENOTEMPTY, w)
               | _, _ =>
                   match refuses w (SysRename src dst) with
                   | Some e => (Raise e, w)
                   | None =>
                       match fs_put src None (disk w) ≫= fs_put dst (Some n) with
                       | Some d' => (Ok tt, set_disk d' w)
                       | None => (Raise EINVAL, w)
                       end
                   end
               end
           end
       end.

(** [shutil.move(src, dst)]: into [dst] when it is a directory, onto
    [dst] otherwise.  When the rename fails, the copy-and-unlink that
    shutil falls back to is taken to fail with the same error and to
    leave the tree as it was. *)
Definition shutil_move (src dst : path) : M unit :=
  do isdir <- os_path_isdir dst;
  do real_dst <-
    (if isdir : bool then
       let real_dst := os_path_join dst (os_path_basename src) in
       do there <- os_path_exists real_dst;
       if there : bool then raise EEXIST else ret real_dst
     else ret dst);
  os_rename src real_dst.

(** ** The handler *)

Import PyStr.

Definition EXTENSION_MAP : list (string * list string) :=
  [ ("Images", [".jpg"; ".jpeg"; ".png"; ".gif"; ".svg"; ".bmp"; ".webp"]);
    ("Documents", [".pdf"; ".docx"; ".doc"; ".txt"; ".xlsx"; ".pptx"; ".csv"]);
    ("Archives", [".zip"; ".rar"; ".7z"; ".tar"; ".gz"]);
    ("Video", [".mp4"; ".mov"; ".avi"; ".mkv"; ".wmv"]);
    ("Audio", [".mp3"; ".wav"; ".flac"; ".m4a"]);
    ("Executables", [".exe"; ".msi"; ".dmg"]) ]%string.

(** The [while] loop of get_unique_path (lines 74-77); [fuel] bounds the
    number of tests of its condition. *)
Fixpoint get_unique_path_loop (fuel : nat) (target_dir : path) (base extension : string)
    (counter : nat) (unique_path : path) : M path :=
  match fuel with
  | O => λ w, (OutOfFuel, w)
  | S fuel' =>
      do there <- os_path_exists unique_path;
      if there : bool then
        let unique_filename := (base +:+ "(" +:+ pretty counter +:+ ")" +:+ extension)%string in
        let unique_path := os_path_join target_dir unique_filename in
        let counter := (counter + 1)%nat in
        get_unique_path_loop fuel' target_dir base extension counter unique_path
      else ret unique_path
  end.

(** The budget get_unique_path runs its loop with: one test more than
    [target_dir] has entries.  It is shown below never to be exhausted,
    and a larger one to give the same path. *)
Definition probe_budget (target_dir : path) (w : world) : nat :=
  match fs_lookup target_dir (disk w) with
  | Some (Dir m) => S (size m)
  | _ => 1%nat
  end.

Definition get_unique_path (target_dir : path) (filename : string) : M path :=
  let '(base, extension) := splitext filename in
  let counter := 1%nat in
  let unique_path := os_path_join target_dir filename in
  λ w, get_unique_path_loop (probe_budget target_dir w) target_dir base extension
         counter unique_path w.

(** Lines 97-111: the body of [if extension in extensions]. *)
Definition place (folder_name filename : string) (file_path : path) : M unit :=
  let target_dir := os_path_join DOWNLOADS_DIR folder_name in
  do there <- os_path_exists target_dir;
  (if there : bool then ret tt else os_makedirs target_dir);;
  do final_destination <- get_unique_path target_dir filename;
  try_except
    (time_sleep;;
     shutil_move file_path final_destination;;
     print (Moved filename (os_path_basename final_destination)))
    (λ e, print (MoveError filename e)).

(** Lines 95-112: [for folder_name, extensions in items: ... break]. *)
Fixpoint move_file_items (items : list (string * list string))
    (extension filename : string) (file_path : path) : M unit :=
  match items with
  | [] => ret tt
  | (folder_name, extensions) :: items' =>
      if bool_decide (extension ∈ extensions)
      then place folder_name filename file_path
      else move_file_items items' extension filename file_path
  end.

Definition move_file (filename : string) (file_path : path) : M unit :=
  let extension := lower (splitext filename).2 in
  move_file_items EXTENSION_MAP extension filename file_path.

(** Lines 50-54, over the list [os.listdir] returned. *)
Fixpoint sort_files_loop (names : list string) : M unit :=
  match names with
  | [] => ret tt
  | filename :: names' =>
      let file_path := os_path_join DOWNLOADS_DIR filename in
      do isdir <- os_path_isdir file_path;
      (if (isdir : bool) || startswith "." filename then ret tt
       else move_file filename file_path);;
      sort_files_loop names'
  end.

Definition sort_files : M unit :=
  do names <- os_listdir DOWNLOADS_DIR;
  sort_files_loop names.

(** The events of watchdog: their kind and whether they concern a
    directory. *)
Inductive event_type :=
  | EVENT_TYPE_MOVED | EVENT_TYPE_DELETED | EVENT_TYPE_CREATED
  | EVENT_TYPE_MODIFIED | EVENT_TYPE_CLOSED | EVENT_TYPE_OPENED.

Record event := Event { kind : event_type; is_directory : bool }.

Definition on_modified (ev : event) : M unit :=
  if negb (is_directory ev) then sort_files else ret tt.

(** [FileSystemEventHandler.dispatch]: the method of the event's kind is
    called; [SortingHandler] overrides on_modified only, the methods it
    inherits do nothing. *)
Definition dispatch (ev : event) : M unit :=
  match kind ev with
  | EVENT_TYPE_MODIFIED => on_modified ev
  | _ => ret tt
  end.

(** The names get_unique_path tries, in the words of the specification:
    [base.ext], [base(1).ext], [base(2).ext], ... *)
Definition candidate (filename : string) (k : nat) : string :=
  match k with
  | O => filename
  | S _ =>
      let '(base, ext) := splitext filename in
      (base +:+ "(" +:+ pretty k +:+ ")" +:+ ext)%string
  end.

(** The category of an extension, in the words of the specification: the
    first one, in the configured order, that lists it. *)
Fixpoint classify (rules : list (string * list string)) (extension : string) : option string :=
  match rules with
  | [] => None
  | (category, extensions) :: rules' =>
      if bool_decide (extension ∈ extensions) then Some category
      else classify rules' extension
  end.

Definition extension_of (filename : string) : string := lower (splitext filename).2.

Definition hidden (filename : string) : bool := startswith "." filename.

(** Is the [k]-th candidate taken in [target_dir]? *)
Definition taken_at (w : world) (target_dir : path) (filename : string) (k : nat) : bool :=
  path_exists (os_path_join target_dir (candidate filename k)) w.

(** The entries of the directory at [p]; none when [p] is no directory. *)
Definition dir_at (p : path) (w : world) : gmap string node :=
  match fs_lookup p (disk w) with Some (Dir m) => m | _ => ∅ end.

(** ** The handler as a relation on the entries of [DOWNLOADS_DIR]

    The world whose [DOWNLOADS_DIR] is a directory with the entries [m]. *)
Definition rootw (ls : gmap string node → list string) (m : gmap string node)
    (r : syscall → option oserror) (out : list line) : world :=
  {| disk := Some (Dir m); listing := ls; refuses := r; stdout := out |}.

(** The category directory is there after lines 99-100: it was, or it
    has been created. *)
Definition ensured (r : syscall → option oserror) (c : string) (m m1 : gmap string node) : Prop :=
  (is_Some (m !! c) ∧ m1 = m)
  ∨ (m !! c = None ∧ r (SysMkdir [c]) = None ∧ m1 = <[c := Dir ∅]> m).

(** What lines 99-107 of [place] do to the entries of [DOWNLOADS_DIR]:
    the result, the entries afterwards and the line to print. *)
Inductive placed (r : syscall → option oserror) (c f : string) (m : gmap string node) :
    result unit → gmap string node → list line → Prop :=
  | placed_mkdir_refused e :
      m !! c = None → r (SysMkdir [c]) = Some e →
      placed r c f m (Raise e) m []
  | placed_move_failed m1 e :
      ensured r c m m1 →
      (m1 !! f = None ∨ (∃ data, m1 !! c = Some (File data)) ∨ f = c
       ∨ ∃ dst, r (SysRename [f] dst) = Some e) →
      placed r c f m (Ok tt) m1 [MoveError f e]
  | placed_moved m1 d n k :
      ensured r c m m1 → m1 !! c = Some (Dir d) → m1 !! f = Some n → f ≠ c →
      (∀ j, j < k → is_Some (d !! candidate f j)) → d !! candidate f k = None →
      r (SysRename [f] [c; candidate f k]) = None →
      placed r c f m (Ok tt)
        (<[c := Dir (<[candidate f k := n]> d)]> (delete f m1))
        [Moved f (candidate f k)].

(** Printing the line of [place] (lines 109 and 111): it is written, or
    the [print] raises; the one of line 109 raises into the handler,
    whose own [print] then raises out of [place]. *)
Inductive printed (r : syscall → option oserror) (f : string) :
    result unit → list line → result unit → list line → Prop :=
  | printed_nothing res : printed r f res [] res []
  | printed_line res l : r (SysPrint f) = None → printed r f res [l] res [l]
  | printed_refused res l e : r (SysPrint f) = Some e → printed r f res [l] (Raise e) [].

(** One iteration of the loop of sort_files (lines 51-54). *)
Inductive stepped (r : syscall → option oserror) (f : string) (m : gmap string node) :
    result unit → gmap string node → list line → Prop :=
  | stepped_skip :
      (∃ d, m !! f = Some (Dir d)) ∨ hidden f = true
      ∨ classify EXTENSION_MAP (extension_of f) = None →
      stepped r f m (Ok tt) m []
  | stepped_place c res0 lines0 res m' lines :
      (∀ d, m !! f ≠ Some (Dir d)) → hidden f = false →
      classify EXTENSION_MAP (extension_of f) = Some c →
      placed r c f m res0 m' lines0 →
      printed r f res0 lines0 res lines →
      stepped r f m res m' lines.

(** The loop over a listing; a [raise] ends it. *)
Inductive ran (r : syscall → option oserror) :
    list string → gmap string node → result unit → gmap string node → list line → Prop :=
  | ran_nil m : ran r [] m (Ok tt) m []
  | ran_cons f names m m1 l1 res m2 l2 :
      stepped r f m (Ok tt) m1 l1 → ran r names m1 res m2 l2 →
      ran r (f :: names) m res m2 (l1 ++ l2)
  | ran_raise f names m e m1 l1 :
      stepped r f m (Raise e) m1 l1 →
      ran r (f :: names) m (Raise e) m1 l1.

(** The number of failures reported. *)
Fixpoint failures (out : list line) : nat :=
  match out with
  | [] => 0
  | MoveError _ _ :: out' => S (failures out')
  | Moved _ _ :: out' => failures out'
  end.

(** The entries sort_files leaves alone: directories, hidden names and
    names of no category. *)
Definition protected (x : string) (n : node) : Prop :=
  (∃ d, n = Dir d) ∨ hidden x = true ∨ classify EXTENSION_MAP (extension_of x) = None.

(** An entry [n] named [x] is still in place in [o]: the same file, the
    same directory, or, for a category directory, a directory with the
    entries it had and possibly more. *)
Definition kept (x : string) (n : node) (o : option node) : Prop :=
  match n with
  | File _ => o = Some n
  | Dir d =>
      if bool_decide (x ∈ EXTENSION_MAP.*1)
      then ∃ d', o = Some (Dir d') ∧ d ⊆ d'
      else o = Some n
  end.

(** The file [f] with the content [data] is still in [DOWNLOADS_DIR],
    and the place of its category [c] is free or a directory. *)
Definition waiting (f data c : string) (m : gmap string node) : Prop :=
  m !! f = Some (File data) ∧ (m !! c = None ∨ ∃ d, m !! c = Some (Dir d)).


(** ** Worlds to run the handler on *)

(** An operating system that refuses nothing. *)
Definition quiet : syscall → option oserror := λ _, None.

Definition world0 (m : gmap string node) : world :=
  {| disk := Some (Dir m); listing := keys; refuses := quiet; stdout := [] |}.

(** An operating system that cannot create [Images] (no space is left
    for a new directory) and refuses nothing else. *)
Definition no_images : syscall → option oserror :=
  λ s, match s with
       | SysMkdir p => if bool_decide (p = ["Images"%string]) then Some ENOSPC else None
       | SysRename _ _ => None
       | SysPrint _ => None
       end.

(** The characters below U+0100 that the code page 1251 encodes: ASCII
    and a few signs; no letter with an accent is among them. *)
Definition cp1251_char (c : ascii) : bool :=
  (let 'Ascii _ _ _ _ _ _ _ b7 := c in negb b7)
  || existsb (Ascii.eqb c)
       ["160"; "164"; "166"; "167"; "169"; "171"; "172"; "173"; "174"; "176"; "177";
        "181"; "182"; "183"; "187"]%char.

Fixpoint cp1251_only (s : string) : bool :=
  match s with
  | EmptyString => true
  | String c s' => cp1251_char c && cp1251_only s'
  end.

(** A standard output in the code page 1251, which encodes the Cyrillic
    text of both lines: a line that shows a name with a character
    outside it raises [UnicodeEncodeError]; nothing else is refused. *)
Definition cp1251_stdout : syscall → option oserror :=
  λ s, match s with
       | SysPrint filename => if cp1251_only filename then None else Some UnicodeEncodeError
       | _ => None
       end.

(** [café.png], the e with its accent being U+00E9. *)
Definition cafe_png : string := String "c" (String "a" (String "f" (String (ascii_of_nat 233) ".png"))).

(** An entry the loop of sort_files passes over. *)
Definition inert (m : gmap string node) (x : string) : Prop :=
  (∃ d, m !! x = Some (Dir d)) ∨ hidden x = true
  ∨ classify EXTENSION_MAP (extension_of x) = None.

(** The content [data] of the file [f] is not lost: it is in
    [DOWNLOADS_DIR] under its name, or in the directory of a category
    under one of its candidate names. *)
Definition safe (f data : string) (m : gmap string node) : Prop :=
  m !! f = Some (File data)
  ∨ ∃ c d k, c ∈ EXTENSION_MAP.*1 ∧ m !! c = Some (Dir d)
             ∧ d !! candidate f k = Some (File data).

(** What the line [Moved f b] says: [f] has left [DOWNLOADS_DIR], and
    the directory of its category has an entry [b], a candidate name of
    [f]. *)
Definition landed (f b : string) (m : gmap string node) : Prop :=
  m !! f = None
  ∧ ∃ c d k, classify EXTENSION_MAP (extension_of f) = Some c
             ∧ b = candidate f k ∧ m !! c = Some (Dir d) ∧ is_Some (d !! b).

(** * Theorems *)

(** ** Strings *)

Section strings.
Implicit Types s t : string.

Lemma string_length_app s t :
  String.length (s +:+ t) = (String.length s + String.length t)%nat.
Proof. induction s as [|a s IH]; simpl; [done | by rewrite IH]. Qed.

Lemma string_app_cons a s t : (String a s +:+ t)%string = String a (s +:+ t).
Proof. reflexivity. Qed.

Lemma string_app_nil_r s : (s +:+ "")%string = s.
Proof. induction s as [|a s IH]; [done | by rewrite string_app_cons, IH]. Qed.

Lemma string_app_inv_tail s1 s2 t : (s1 +:+ t = s2 +:+ t)%string → s1 = s2.
Proof.
  revert s2. induction s1 as [|a s1 IH]; intros [|b s2] Heq.
  - done.
  - apply (f_equal String.length) in Heq.
    rewrite !string_length_app in Heq. simpl in Heq. lia.
  - apply (f_equal String.length) in Heq.
    rewrite !string_length_app in Heq. simpl in Heq. lia.
  - rewrite !string_app_cons in Heq. injection Heq as -> Heq.
    f_equal. by apply IH.
Qed.

Lemma rfind_lt c s d : rfind c s = Some d → (d < String.length s)%nat.
Proof.
  revert d. induction s as [|a s IH]; intros d; simpl; [done |].
  destruct (rfind c s) as [i|].
  - intros [= <-]. specialize (IH i eq_refl). lia.
  - destruct (Ascii.eqb a c); [intros [= <-]; lia | done].
Qed.

Lemma substring_all s : String.substring 0 (String.length s) s = s.
Proof. induction s as [|a s IH]; simpl; [done | by f_equal]. Qed.

Lemma substring_split s d :
  (d ≤ String.length s)%nat →
  (String.substring 0 d s +:+ String.substring d (String.length s - d) s)%string = s.
Proof.
  revert d. induction s as [|a s IH]; intros [|d] Hd; simpl in *; try done; try lia.
  - by rewrite substring_all.
  - rewrite string_app_cons. f_equal. apply IH. lia.
Qed.

(** [base + extension == filename], as the documentation of
    [os.path.splitext] promises. *)
Lemma splitext_app s : ((splitext s).1 +:+ (splitext s).2)%string = s.
Proof.
  unfold splitext. destruct (rfind "." s) as [d|] eqn:Hd; simpl.
  - case_match; simpl; [|apply string_app_nil_r].
    unfold slice. rewrite Nat.sub_0_r. apply substring_split.
    apply rfind_lt in Hd. lia.
  - apply string_app_nil_r.
Qed.

Lemma rfind_app_last c b e :
  rfind c e = None → rfind c (b +:+ String c e) = Some (String.length b).
Proof.
  intros He. induction b as [|a b IH].
  - change ("" +:+ String c e)%string with (String c e). simpl.
    by rewrite He, Ascii.eqb_refl.
  - rewrite string_app_cons. simpl. by rewrite IH.
Qed.

Lemma substring_app_l b s : String.substring 0 (String.length b) (b +:+ s) = b.
Proof.
  induction b as [|a b IH]; [by destruct s|].
  rewrite string_app_cons. simpl. by f_equal.
Qed.

Lemma substring_app_r b s n :
  String.substring (String.length b) n (b +:+ s) = String.substring 0 n s.
Proof. induction b as [|a b IH]; [done|]. by rewrite string_app_cons. Qed.

(** The extension is the text from the last dot on, for a name without
    separator that has a character other than a dot before it. *)
Lemma splitext_last_dot b e :
  all_eq "." b = false →
  rfind "/" (b +:+ String "." e) = None →
  rfind "." e = None →
  splitext (b +:+ String "." e) = (b, String "." e).
Proof.
  intros Hb Hsep He. unfold splitext, slice.
  rewrite Hsep, (rfind_app_last "." b e He). simpl.
  rewrite Nat.sub_0_r, substring_app_l, Hb. simpl.
  rewrite substring_app_r, string_length_app.
  replace (String.length b + String.length (String "." e) - String.length b)
    with (String.length (String "." e)) by lia.
  by rewrite substring_all.
Qed.

(** A name without a dot has no extension, and no category. *)
Lemma splitext_no_dot s : rfind "." s = None → splitext s = (s, ""%string).
Proof. intros Hs. unfold splitext. by rewrite Hs. Qed.

Lemma no_extension_unclassified s :
  rfind "." s = None → classify EXTENSION_MAP (extension_of s) = None.
Proof. intros Hs. unfold extension_of. by rewrite splitext_no_dot. Qed.

Lemma candidate_inj filename : Inj (=) (=) (candidate filename).
Proof.
  intros i j. unfold candidate.
  pose proof (splitext_app filename) as Happ.
  destruct (splitext filename) as [base ext]; simpl in Happ.
  destruct i as [|i], j as [|j]; [done | | |].
  - rewrite <-Happ at 1. intros Heq%(inj (String.append base)).
    apply (f_equal String.length) in Heq. simpl in Heq.
    rewrite !string_length_app in Heq. simpl in Heq. lia.
  - rewrite <-Happ at 1. intros Heq%(inj (String.append base)).
    apply (f_equal String.length) in Heq. simpl in Heq.
    rewrite !string_length_app in Heq. simpl in Heq. lia.
  - intros Heq%(inj (String.append base)). simpl in Heq.
    injection Heq as Heq.
    apply (string_app_inv_tail (pretty (S i)) (pretty (S j))) in Heq.
    by apply (inj pretty) in Heq.
Qed.

End strings.

(** ** The file tree *)

Lemma fs_walk_app (p q : path) (d : option node) :
  fs_walk (p ++ q) d =
  match fs_walk p d with inr n => fs_walk q (Some n) | inl e => inl e end.
Proof.
  revert d. induction p as [|x p IH]; intros [n|]; simpl; try done.
  - by destruct q.
  - destruct n as [|m]; [done | apply IH].
Qed.

Lemma fs_lookup_join (p : path) (x : string) (w : world) :
  fs_lookup (os_path_join p x) (disk w) = dir_at p w !! x.
Proof.
  unfold fs_lookup, os_path_join, dir_at, fs_lookup. rewrite fs_walk_app.
  destruct (fs_walk p (disk w)) as [e|[c|m]]; simpl; try done.
  by destruct (m !! x).
Qed.

Lemma path_exists_join (p : path) (x : string) (w : world) :
  path_exists (os_path_join p x) w = true ↔ is_Some (dir_at p w !! x).
Proof.
  unfold path_exists. rewrite fs_lookup_join.
  destruct (dir_at p w !! x); split; (done || by intros [? ?] || eauto).
Qed.

Lemma probe_budget_size (p : path) (w : world) :
  probe_budget p w = S (size (dir_at p w)).
Proof.
  unfold probe_budget, dir_at.
  destruct (fs_lookup p (disk w)) as [[c|m]|]; by rewrite ?map_size_empty.
Qed.

(** ** Collision resolution *)

Section get_unique_path.
Variable w : world.
Variable target_dir : path.
Variable filename : string.

Local Abbreviation taken := (taken_at w target_dir filename).

(** The loop, entered with the [i]-th candidate, stops at the first
    free one from there on. *)
Lemma get_unique_path_loop_run (fuel i k : nat) :
  (∀ j, i ≤ j < k → taken j = true) → taken k = false →
  i ≤ k → k - i < fuel →
  get_unique_path_loop fuel target_dir (splitext filename).1 (splitext filename).2
    (S i) (os_path_join target_dir (candidate filename i)) w
  = (Ok (os_path_join target_dir (candidate filename k)), w).
Proof.
  revert i. induction fuel as [|fuel IH]; intros i Htaken Hfree Hik Hfuel; [lia|].
  simpl. unfold bind, os_path_exists at 1.
  destruct (decide (i = k)) as [->|Hne].
  - fold (taken k). by rewrite Hfree.
  - fold (taken i). rewrite Htaken by lia.
    rewrite Nat.add_1_r.
    specialize (IH (S i)). unfold candidate at 1 in IH.
    destruct (splitext filename) as [base ext]. apply IH; (done || lia || idtac).
    intros j Hj. apply Htaken. lia.
Qed.

(** Among the first [size + 1] candidates one is free: they are
    pairwise distinct, and the directory has [size] entries. *)
Lemma candidate_free_within :
  ∃ k, k ≤ size (dir_at target_dir w) ∧ taken k = false.
Proof.
  set (n := size (dir_at target_dir w)).
  destruct (decide (Forall (λ k, taken k = true) (seq 0 (S n)))) as [Hall|Hex].
  - exfalso.
    assert (candidate filename <$> seq 0 (S n) ⊆+ (map_to_list (dir_at target_dir w)).*1) as Hsub.
    { apply NoDup_submseteq.
      - pose proof (candidate_inj filename). apply (NoDup_fmap_2 _), NoDup_seq.
      - intros x (k & -> & Hk)%list_elem_of_fmap.
        rewrite Forall_forall in Hall. specialize (Hall k Hk).
        apply path_exists_join in Hall as [v Hv].
        apply list_elem_of_fmap. exists (candidate filename k, v).
        split; [done | by apply elem_of_map_to_list]. }
    apply submseteq_length in Hsub.
    rewrite !length_fmap, length_seq, length_map_to_list in Hsub. lia.
  - apply (not_Forall_Exists _) in Hex.
    apply Exists_exists in Hex as (k & Hk%elem_of_seq & Hfree).
    exists k. split; [lia | by apply not_true_is_false].
Qed.

(** The least free candidate. *)
Lemma candidate_first_free :
  ∃ k, k ≤ size (dir_at target_dir w) ∧ taken k = false ∧ ∀ j, j < k → taken j = true.
Proof.
  destruct candidate_free_within as (n & Hn & Hfree).
  revert Hn Hfree. generalize (size (dir_at target_dir w)) as bound.
  induction n as [n IH] using lt_wf_ind. intros bound Hn Hfree.
  destruct (decide (Forall (λ j, taken j = true) (seq 0 n))) as [Hall|Hex].
  - exists n. split_and!; [done..|].
    intros j Hj. rewrite Forall_forall in Hall. apply Hall, elem_of_seq. lia.
  - apply (not_Forall_Exists _) in Hex.
    apply Exists_exists in Hex as (j & Hj%elem_of_seq & Hjfree).
    apply (IH j); [lia | lia | by apply not_true_is_false].
Qed.

End get_unique_path.

Lemma get_unique_path_unfold (target_dir : path) (filename : string) (w : world) :
  get_unique_path target_dir filename w =
  get_unique_path_loop (probe_budget target_dir w) target_dir
    (splitext filename).1 (splitext filename).2 1 (os_path_join target_dir filename) w.
Proof. unfold get_unique_path. by destruct (splitext filename). Qed.

(** What get_unique_path returns: the least free candidate, found
    within the budget and with any larger one. *)
Lemma get_unique_path_least (w : world) (target_dir : path) (filename : string) :
  ∃ k,
    (∀ j, j < k → path_exists (os_path_join target_dir (candidate filename j)) w = true)
    ∧ path_exists (os_path_join target_dir (candidate filename k)) w = false
    ∧ get_unique_path target_dir filename w
      = (Ok (os_path_join target_dir (candidate filename k)), w)
    ∧ ∀ fuel, probe_budget target_dir w ≤ fuel →
        get_unique_path_loop fuel target_dir (splitext filename).1 (splitext filename).2
          1 (os_path_join target_dir filename) w
        = (Ok (os_path_join target_dir (candidate filename k)), w).
Proof.
  destruct (candidate_first_free w target_dir filename) as (k & Hk & Hfree & Htaken).
  assert (∀ fuel, probe_budget target_dir w ≤ fuel →
    get_unique_path_loop fuel target_dir (splitext filename).1 (splitext filename).2
      1 (os_path_join target_dir filename) w
    = (Ok (os_path_join target_dir (candidate filename k)), w)) as Hrun.
  { intros fuel Hfuel. rewrite probe_budget_size in Hfuel.
    apply (get_unique_path_loop_run w target_dir filename fuel 0 k); [|done|lia..].
    intros j Hj. apply Htaken. lia. }
  exists k. split_and!; [done..| |done].
  rewrite get_unique_path_unfold. by apply Hrun.
Qed.

Lemma os_path_join_inj (p : path) : Inj (=) (=) (os_path_join p).
Proof. intros x y Heq. unfold os_path_join in Heq. by simplify_list_eq. Qed.

(** C10 (get_unique_path, lines 70-79).  The probe loop terminates: a
    directory has finitely many entries and the candidate names are
    pairwise distinct, so within one test more than the directory has
    entries a path that does not exist is met, and get_unique_path
    returns it; a larger budget gives the same path. *)
Theorem get_unique_path_terminates (w : world) (target_dir : path) (filename : string) :
  ∃ unique_path,
    path_exists unique_path w = false
    ∧ get_unique_path target_dir filename w = (Ok unique_path, w)
    ∧ ∀ fuel, probe_budget target_dir w ≤ fuel →
        get_unique_path_loop fuel target_dir (splitext filename).1 (splitext filename).2
          1 (os_path_join target_dir filename) w
        = (Ok unique_path, w).
Proof.
  destruct (get_unique_path_least w target_dir filename) as (k & _ & Hfree & Hget & Hrun).
  by exists (os_path_join target_dir (candidate filename k)).
Qed.

(** C3 (get_unique_path, lines 56-79).  The candidates are probed in the
    order base.ext, base(1).ext, base(2).ext, ...: the path returned is
    the first of them that does not exist, every one before it exists
    (no gap below the suffix given); when the name and its suffixes up
    to [n] are the ones taken the suffix given is [n + 1], so from 1 on;
    and once the names up to the suffix given are taken the next
    collision gets a strictly larger one. *)
Theorem get_unique_path_first_free (w : world) (target_dir : path) (filename : string) :
  ∃ k,
    get_unique_path target_dir filename w
    = (Ok (os_path_join target_dir (candidate filename k)), w)
    ∧ (∀ j, j < k → path_exists (os_path_join target_dir (candidate filename j)) w = true)
    ∧ path_exists (os_path_join target_dir (candidate filename k)) w = false
    ∧ (∀ n, (∀ j, taken_at w target_dir filename j = true ↔ j ≤ n) → k = S n)
    ∧ ∀ w' k',
        (∀ j, j ≤ k → path_exists (os_path_join target_dir (candidate filename j)) w' = true) →
        get_unique_path target_dir filename w'
        = (Ok (os_path_join target_dir (candidate filename k')), w') →
        k < k'.
Proof.
  destruct (get_unique_path_least w target_dir filename) as (k & Htaken & Hfree & Hget & _).
  exists k. split_and!; [done..| |].
  { intros n Hexact. unfold taken_at in Hexact.
    assert (¬ k ≤ n) by (rewrite <-Hexact; congruence).
    destruct (decide (S n < k)) as [Hlt|]; [|lia].
    apply Htaken, Hexact in Hlt. lia. }
  intros w' k' Htaken' Hget'.
  destruct (get_unique_path_least w' target_dir filename) as (k'' & _ & Hfree' & Hget'' & _).
  assert (k'' = k') as <-.
  { apply (candidate_inj filename), (os_path_join_inj target_dir). congruence. }
  destruct (decide (k < k'')) as [|Hle]; [done|].
  rewrite Htaken' in Hfree' by lia. done.
Qed.

(** ** Classification *)

Lemma move_file_items_classify (rules : list (string * list string))
    (extension filename : string) (file_path : path) :
  move_file_items rules extension filename file_path =
  match classify rules extension with
  | Some folder_name => place folder_name filename file_path
  | None => ret tt
  end.
Proof.
  induction rules as [|[folder_name extensions] rules IH]; simpl; [done|].
  by case_bool_decide.
Qed.

Lemma classify_first (l1 l2 : list (string * list string))
    (folder_name : string) (extensions : list string) (extension : string) :
  extension ∈ extensions →
  (∀ c e, (c, e) ∈ l1 → extension ∉ e) →
  classify (l1 ++ (folder_name, extensions) :: l2) extension = Some folder_name.
Proof.
  intros Hin. induction l1 as [|[c e] l1 IH]; intros Hbefore; simpl.
  - by rewrite bool_decide_eq_true_2.
  - rewrite bool_decide_eq_false_2; [|eapply Hbefore; left].
    apply IH. intros c' e' Hin'. eapply Hbefore. by right.
Qed.

Lemma classify_Some (rules : list (string * list string)) (extension category : string) :
  classify rules extension = Some category →
  ∃ extensions, (category, extensions) ∈ rules ∧ extension ∈ extensions.
Proof.
  induction rules as [|[c e] rules IH]; simpl; [done|].
  case_bool_decide as Hin.
  - intros [= <-]. exists e. split; [left | done].
  - intros (e' & Hin' & He')%IH. exists e'. split; [by right | done].
Qed.

(** ** Runs below a directory *)

Section root.
Variable ls : gmap string node → list string.
Variable r : syscall → option oserror.
Implicit Types (m d : gmap string node) (out : list line) (c f : string).

Lemma ensure_run m out c :
  (if path_exists [c] (rootw ls m r out) then ret tt else os_makedirs [c]) (rootw ls m r out)
  = match m !! c with
    | Some _ => (Ok tt, rootw ls m r out)
    | None =>
        match r (SysMkdir [c]) with
        | Some e => (Raise e, rootw ls m r out)
        | None => (Ok tt, rootw ls (<[c := Dir ∅]> m) r out)
        end
    end.
Proof.
  unfold path_exists, fs_lookup. simpl. destruct (m !! c) as [n|] eqn:Hc; [done|].
  unfold os_makedirs, os_makedirs_from, bind, os_path_exists, path_exists, fs_lookup, ret.
  simpl. unfold os_mkdir, fs_lookup. simpl. rewrite Hc.
  by destruct (r (SysMkdir [c])).
Qed.

Lemma dir_at_root m out c :
  dir_at [c] (rootw ls m r out) = match m !! c with Some (Dir d) => d | _ => ∅ end.
Proof. unfold dir_at, fs_lookup. simpl. by destruct (m !! c) as [[|]|]. Qed.

Lemma shutil_move_run m out c f name :
  (match m !! c with Some (Dir d) => d | _ => ∅ end) !! name = None →
  shutil_move [f] [c; name] (rootw ls m r out) =
  match m !! f with
  | None => (Raise ENOENT, rootw ls m r out)
  | Some n =>
      match m !! c with
      | None => (Raise ENOENT, rootw ls m r out)
      | Some (File _) => (Raise ENOTDIR, rootw ls m r out)
      | Some (Dir d) =>
          match r (SysRename [f] [c; name]) with
          | Some e => (Raise e, rootw ls m r out)
          | None =>
              if decide (f = c) then (Raise EINVAL, rootw ls m r out)
              else (Ok tt, rootw ls (<[c := Dir (<[name := n]> d)]> (delete f m)) r out)
          end
      end
  end.
Proof.
  intros Hfree.
  assert (is_dir [c; name] (rootw ls m r out) = false) as Hnodir.
  { unfold is_dir, fs_lookup. simpl.
    destruct (m !! c) as [[data|d]|]; simpl in *; by rewrite ?Hfree. }
  unfold shutil_move, bind, os_path_isdir. rewrite Hnodir. unfold ret.
  unfold os_rename, fs_lookup. simpl.
  destruct (m !! f) as [n|] eqn:Hf; [|done].
  destruct (m !! c) as [[data|d]|] eqn:Hc; [done| |done].
  rewrite Hfree. rewrite bool_decide_eq_false_2 by (intros [=]).
  assert (∀ A (x : A), match n with File _ | _ => x end = x) as -> by (by destruct n).
  destruct (r (SysRename [f] [c; name])) as [e|]; [done|].
  destruct (decide (f = c)) as [->|Hne].
  - by rewrite lookup_delete_eq.
  - by rewrite lookup_delete_ne, Hc.
Qed.

Lemma get_unique_path_run m out c f :
  ∃ k,
    get_unique_path [c] f (rootw ls m r out) = (Ok [c; candidate f k], rootw ls m r out)
    ∧ (∀ j, j < k → is_Some (dir_at [c] (rootw ls m r out) !! candidate f j))
    ∧ dir_at [c] (rootw ls m r out) !! candidate f k = None.
Proof.
  destruct (get_unique_path_least (rootw ls m r out) [c] f) as (k & Htaken & Hfree & Hget & _).
  exists k. split_and!; [done| |].
  - intros j Hj. by apply path_exists_join, Htaken.
  - apply eq_None_not_Some. rewrite <-path_exists_join. by rewrite Hfree.
Qed.

Lemma print_run m out l :
  ∃ res lines,
    print l (rootw ls m r out) = (res, rootw ls m r (out ++ lines))
    ∧ printed r (line_name l) (Ok tt) [l] res lines.
Proof.
  unfold print. simpl. destruct (r (SysPrint (line_name l))) as [e|] eqn:He.
  - exists (Raise e), []. rewrite app_nil_r. split; [done | by constructor].
  - exists (Ok tt), [l]. split; [done | by constructor].
Qed.

(** [place] refines [placed] followed by [printed]. *)
Lemma place_run m out c f :
  ∃ res0 lines0 res m' lines,
    place c f [f] (rootw ls m r out) = (res, rootw ls m' r (out ++ lines))
    ∧ placed r c f m res0 m' lines0
    ∧ printed r f res0 lines0 res lines.
Proof.
  unfold place, DOWNLOADS_DIR, os_path_join. simpl.
  unfold bind at 1. unfold os_path_exists at 1. unfold bind at 1.
  rewrite ensure_run.
  assert ((∃ m1, ensured r c m m1 ∧ is_Some (m1 !! c) ∧
    match m !! c with
    | Some _ => (Ok tt, rootw ls m r out)
    | None =>
        match r (SysMkdir [c]) with
        | Some e => (Raise e, rootw ls m r out)
        | None => (Ok tt, rootw ls (<[c := Dir ∅]> m) r out)
        end
    end = (Ok tt, rootw ls m1 r out))
    ∨ ∃ e, m !! c = None ∧ r (SysMkdir [c]) = Some e) as [(m1 & Hens & Hc1 & ->)|(e & Hc & He)].
  { destruct (m !! c) as [n|] eqn:Hc.
    - left. exists m. split_and!; [left|..]; eauto.
    - destruct (r (SysMkdir [c])) as [e|] eqn:He; [by eauto|].
      left. exists (<[c := Dir ∅]> m). split_and!; [right|..]; eauto.
      rewrite lookup_insert_eq. eauto. }
  2: { rewrite Hc, He. exists (Raise e), [], (Raise e), m, []. rewrite app_nil_r.
       split_and!; [done | by constructor | constructor]. }
  unfold bind at 1.
  destruct (get_unique_path_run m1 out c f) as (k & -> & Htaken & Hfree).
  rewrite dir_at_root in Htaken, Hfree.
  unfold try_except, time_sleep, bind, ret.
  rewrite shutil_move_run by done.
  assert (∀ e,
    (m1 !! f = None ∨ (∃ data, m1 !! c = Some (File data)) ∨ f = c
     ∨ ∃ dst, r (SysRename [f] dst) = Some e) →
    ∃ res0 lines0 res m' lines,
      print (MoveError f e) (rootw ls m1 r out) = (res, rootw ls m' r (out ++ lines))
      ∧ placed r c f m res0 m' lines0 ∧ printed r f res0 lines0 res lines) as Hfailed.
  { intros e Hwhy.
    destruct (print_run m1 out (MoveError f e)) as (res & lines & -> & Hprinted).
    exists (Ok tt), [MoveError f e], res, m1, lines.
    split_and!; [done | by constructor | done]. }
  destruct (m1 !! f) as [n|] eqn:Hf; [|by apply Hfailed; eauto].
  destruct Hc1 as [[data|d] Hc1]; rewrite Hc1 in *; [by apply Hfailed; eauto|].
  destruct (r (SysRename [f] [c; candidate f k])) as [e|] eqn:Hren;
    [by apply Hfailed; eauto 10|].
  destruct (decide (f = c)) as [->|Hne]; [by apply Hfailed; eauto|].
  exists (Ok tt), [Moved f (candidate f k)].
  unfold print. simpl. destruct (r (SysPrint f)) as [e|] eqn:Hprint; simpl; rewrite ?Hprint.
  - eexists (Raise e), _, []. rewrite app_nil_r.
    split_and!; [done | by econstructor | by constructor].
  - eexists (Ok tt), _, [Moved f (candidate f k)].
    split_and!; [done | by econstructor | by constructor].
Qed.

Lemma move_file_run m out f :
  move_file f [f] (rootw ls m r out) =
  match classify EXTENSION_MAP (extension_of f) with
  | Some c => place c f [f] (rootw ls m r out)
  | None => (Ok tt, rootw ls m r out)
  end.
Proof.
  unfold move_file. rewrite move_file_items_classify.
  fold (extension_of f). by destruct (classify _ _).
Qed.

Lemma is_dir_root m out f :
  is_dir [f] (rootw ls m r out) = match m !! f with Some (Dir _) => true | _ => false end.
Proof. unfold is_dir, fs_lookup. simpl. by destruct (m !! f) as [[|]|]. Qed.

(** The body of the loop of sort_files, on one name. *)
Lemma sort_files_step_run m out f :
  ∃ res m' lines,
    stepped r f m res m' lines
    ∧ sort_files_loop [f] (rootw ls m r out) = (res, rootw ls m' r (out ++ lines)).
Proof.
  simpl. unfold bind at 1, os_path_isdir, DOWNLOADS_DIR, os_path_join. simpl.
  rewrite is_dir_root. fold (hidden f).
  destruct (m !! f) as [[data|d]|] eqn:Hf; simpl.
  2: { exists (Ok tt), m, []. rewrite app_nil_r. split; [|done].
       constructor. eauto. }
  all: destruct (hidden f) eqn:Hhid; simpl.
  all: try (exists (Ok tt), m, []; rewrite app_nil_r; split; [|done];
            constructor; by eauto).
  all: unfold bind; rewrite move_file_run.
  all: destruct (classify EXTENSION_MAP (extension_of f)) as [c|] eqn:Hc.
  all: try (exists (Ok tt), m, []; rewrite app_nil_r; split; [|done];
            constructor; by eauto).
  all: destruct (place_run m out c f)
         as (res0 & lines0 & res & m' & lines & -> & Hplaced & Hprinted).
  all: exists res, m', lines; split; [|by destruct res as [[]| |]].
  all: eapply stepped_place; [intros ?; congruence | done..].
Qed.

Lemma sort_files_loop_cons f names (w : world) :
  sort_files_loop (f :: names) w =
  match sort_files_loop [f] w with
  | (Ok _, w') => sort_files_loop names w'
  | r => r
  end.
Proof.
  simpl. unfold bind, os_path_isdir, ret.
  destruct (_ || _); [done|].
  by destruct (move_file _ _ _) as [[[]| |] w'].
Qed.

(** The loop over a listing refines [ran]. *)
Lemma sort_files_loop_run names m out :
  ∃ res m' lines,
    ran r names m res m' lines
    ∧ sort_files_loop names (rootw ls m r out) = (res, rootw ls m' r (out ++ lines)).
Proof.
  revert m out. induction names as [|f names IH]; intros m out.
  - exists (Ok tt), m, []. rewrite app_nil_r. split; [constructor | done].
  - rewrite sort_files_loop_cons.
    destruct (sort_files_step_run m out f) as (res & m1 & l1 & Hstep & ->).
    destruct res as [[]|e|].
    + destruct (IH m1 (out ++ l1)) as (res & m2 & l2 & Hran & ->).
      exists res, m2, (l1 ++ l2). rewrite app_assoc. split; [by econstructor | done].
    + exists (Raise e), m1, l1. split; [by econstructor | done].
    + exfalso. inversion Hstep as [|c ? ? ? ? ? _ _ _ Hplaced Hprinted]; subst.
      inversion Hprinted; subst; inversion Hplaced.
Qed.

Lemma sort_files_run m out :
  sort_files (rootw ls m r out) = sort_files_loop (ls m) (rootw ls m r out).
Proof. done. Qed.

End root.

(** A line printed is the line that was to be printed. *)
Lemma printed_elem_of (r : syscall → option oserror) (f : string)
    (res0 res : result unit) (lines0 lines : list line) (l : line) :
  printed r f res0 lines0 res lines → l ∈ lines → l ∈ lines0.
Proof.
  intros [res'|res' l' _|res' l' e _] Hin; [done..|]. by apply elem_of_nil in Hin.
Qed.

(** ** Frame: what a rescan leaves alone *)

Lemma category_unclassified (c : string) :
  c ∈ EXTENSION_MAP.*1 → classify EXTENSION_MAP (extension_of c) = None.
Proof.
  assert (Forall (λ c, classify EXTENSION_MAP (extension_of c) = None) EXTENSION_MAP.*1)
    as Hall by (repeat constructor).
  rewrite Forall_forall in Hall. apply Hall.
Qed.

Lemma classify_category (x c : string) :
  classify EXTENSION_MAP (extension_of x) = Some c → c ∈ EXTENSION_MAP.*1.
Proof.
  intros (exts & Hin & _)%classify_Some.
  apply list_elem_of_fmap. by exists (c, exts).
Qed.

Lemma kept_refl (x : string) (n : node) : kept x n (Some n).
Proof. destruct n as [data|d]; simpl; [done|]. case_bool_decide; eauto. Qed.

Lemma kept_trans (x : string) (n n1 : node) (o : option node) :
  kept x n (Some n1) → kept x n1 o → kept x n o.
Proof.
  destruct n as [data|d]; simpl.
  - by intros [= ->].
  - case_bool_decide as Hcat.
    + intros (d1 & [= ->] & Hsub). simpl. rewrite bool_decide_eq_true_2 by done.
      intros (d2 & -> & Hsub2). exists d2. split; [done | by etrans].
    + intros [= ->]. simpl. by rewrite bool_decide_eq_false_2.
Qed.

Lemma kept_protected (x : string) (n n1 : node) :
  kept x n (Some n1) → protected x n → protected x n1.
Proof.
  destruct n as [data|d]; simpl.
  - by intros [= ->].
  - intros Hkept _. left. case_bool_decide.
    + destruct Hkept as (d' & [= ->] & _). eauto.
    + injection Hkept as ->. eauto.
Qed.

Section frame.
Variable r : syscall → option oserror.
Implicit Types (m : gmap string node) (x f c : string) (n : node).

Lemma ensured_lookup c m m1 x n :
  ensured r c m m1 → m !! x = Some n → m1 !! x = Some n.
Proof.
  intros [[_ ->]|(Hc & _ & ->)] Hx; [done|].
  rewrite lookup_insert_ne; [done | congruence].
Qed.

Lemma stepped_frame f m res m' lines x n :
  stepped r f m res m' lines →
  m !! x = Some n → protected x n → kept x n (m' !! x).
Proof.
  intros Hstep Hx Hprot.
  destruct Hstep as [_|c res0 lines0 res m' lines Hnodir Hhid Hc Hplaced _].
  { rewrite Hx. apply kept_refl. }
  destruct Hplaced as [e _ _|m1 e Hens _|m1 d nf k Hens Hc1 Hf Hne _ Hfree _].
  - rewrite Hx. apply kept_refl.
  - rewrite (ensured_lookup c m m1 x n Hens Hx). apply kept_refl.
  - pose proof (ensured_lookup c m m1 x n Hens Hx) as Hx1.
    destruct (decide (x = c)) as [->|Hxc].
    + rewrite lookup_insert_eq. rewrite Hc1 in Hx1. injection Hx1 as <-.
      simpl. rewrite bool_decide_eq_true_2 by (by eapply classify_category).
      eexists. split; [done|]. by apply insert_subseteq.
    + rewrite lookup_insert_ne by done.
      destruct (decide (x = f)) as [->|Hxf].
      * exfalso. destruct Hprot as [[d' ->]|[Hh|Hcl]]; [|congruence..].
        by apply (Hnodir d').
      * rewrite lookup_delete_ne by done. rewrite Hx1. apply kept_refl.
Qed.

Lemma ran_frame names m res m' lines x n :
  ran r names m res m' lines →
  m !! x = Some n → protected x n → kept x n (m' !! x).
Proof.
  intros Hran. revert n.
  induction Hran as [m|f names m m1 l1 res m2 l2 Hstep Hran IH|f names m e m1 l1 Hstep];
    intros n Hx Hprot.
  - rewrite Hx. apply kept_refl.
  - pose proof (stepped_frame _ _ _ _ _ x n Hstep Hx Hprot) as Hkept.
    assert (∃ n1, m1 !! x = Some n1) as [n1 Hx1].
    { destruct n as [data|d]; simpl in Hkept; [eauto|].
      case_bool_decide; [destruct Hkept as (? & ? & _)|]; eauto. }
    rewrite Hx1 in Hkept. eapply kept_trans; [done|].
    apply IH; [done | by eapply kept_protected].
  - by eapply stepped_frame.
Qed.

End frame.

(** ** First match wins *)

(** C7, as amended (move_file, lines 95-112).  First match wins: when an
    extension is listed by several categories, the category is the first
    one, in the configured order, that lists it.  The file is moved into
    the directory of that category, and so into exactly one, when the
    move succeeds -- the place of that directory is free or holds a
    directory, and the operating system refuses neither its creation nor
    the move: the file is then there under the first free of its
    candidate names and gone from [DOWNLOADS_DIR], whose other entries,
    the directories of the other categories among them, are as they
    were.  This holds whether or not the line of line 109 can be
    printed. *)
Theorem move_file_first_match (l1 l2 : list (string * list string)) (folder_name : string)
    (extensions : list string) (extension filename data : string)
    (w : world) (m d : gmap string node) :
  extension ∈ extensions →
  (∀ c e, (c, e) ∈ l1 → extension ∉ e) →
  disk w = Some (Dir m) →
  m !! filename = Some (File data) →
  (m !! folder_name = None ∧ d = ∅) ∨ m !! folder_name = Some (Dir d) →
  refuses w (SysMkdir [folder_name]) = None →
  (∀ dst, refuses w (SysRename [filename] dst) = None) →
  classify (l1 ++ (folder_name, extensions) :: l2) extension = Some folder_name
  ∧ ∃ k,
      disk (move_file_items (l1 ++ (folder_name, extensions) :: l2)
              extension filename [filename] w).2
      = Some (Dir (<[folder_name := Dir (<[candidate filename k := File data]> d)]>
                     (delete filename m)))
      ∧ d !! candidate filename k = None
      ∧ ∀ j, j < k → is_Some (d !! candidate filename j).
Proof.
  intros Hin Hbefore Hdisk Hf Hc Hmkdir Hmove.
  pose proof (classify_first l1 l2 folder_name extensions extension Hin Hbefore) as Hcl.
  split; [done|].
  rewrite move_file_items_classify, Hcl.
  destruct w as [dsk ls r out]. simpl in Hdisk, Hmkdir, Hmove. subst dsk.
  change (World (Some (Dir m)) ls r out) with (rootw ls m r out).
  destruct (place_run ls r m out folder_name filename)
    as (res0 & lines0 & res & m' & lines & -> & Hplaced & _).
  simpl.
  destruct Hplaced as [e Hnone He|m1 e Hens Hwhy|m1 d0 n k Hens Hc1 Hf1 Hne Htaken Hfree _].
  - congruence.
  - exfalso. pose proof (ensured_lookup r folder_name m m1 filename _ Hens Hf) as Hf1.
    destruct Hwhy as [Hnone|[[data' Hfile]|[->|[dst Href]]]].
    + congruence.
    + destruct Hens as [[_ ->]|(_ & _ & ->)].
      * destruct Hc as [[Hc _]|Hc]; congruence.
      * by rewrite lookup_insert_eq in Hfile.
    + destruct Hc as [[Hc _]|Hc]; congruence.
    + by rewrite Hmove in Href.
  - rewrite (ensured_lookup r folder_name m m1 filename _ Hens Hf) in Hf1.
    injection Hf1 as <-.
    destruct Hens as [[[n Hn] ->]|(Hnone & _ & ->)].
    + destruct Hc as [[Hc _]|Hc]; [congruence|].
      assert (d0 = d) as -> by congruence. by exists k.
    + destruct Hc as [[_ ->]|Hc]; [|congruence].
      rewrite lookup_insert_eq in Hc1. injection Hc1 as <-.
      exists k. split_and!; [|done..].
      by rewrite delete_insert_ne, insert_insert_eq.
Qed.

Lemma move_file_first_match_witness :
  let rules := [("Images", [".png"]); ("Documents", [".pdf"; ".txt"]); ("Text", [".txt"])]%string in
  let m : gmap string node := <["notes.txt" := File "n"]> (<["Text" := Dir ∅]> ∅) in
  classify rules ".txt" = Some "Documents"%string
  ∧ ∃ k,
      disk (move_file_items rules ".txt" "notes.txt" ["notes.txt"%string] (world0 m)).2
      = Some (Dir (<["Documents" := Dir (<[candidate "notes.txt" k := File "n"]> ∅)]>
                     (delete "notes.txt" m)))
      ∧ (∅ : gmap string node) !! candidate "notes.txt" k = None
      ∧ ∀ j, j < k → is_Some ((∅ : gmap string node) !! candidate "notes.txt" j).
Proof.
  intros rules m.
  apply (move_file_first_match [("Images", [".png"])]%string [("Text", [".txt"])]%string
           "Documents" [".pdf"; ".txt"]%string ".txt" "notes.txt" "n" (world0 m) m ∅).
  - apply (bool_decide_unpack _). vm_compute. exact I.
  - intros c e Hce. apply list_elem_of_singleton in Hce. injection Hce as -> ->.
    apply (bool_decide_unpack _). vm_compute. exact I.
  - reflexivity.
  - vm_compute. reflexivity.
  - left. split; [vm_compute; reflexivity | reflexivity].
  - reflexivity.
  - intros dst. reflexivity.
Defined.

(** C7 as stated fails: [.txt] is listed by [Documents] and by [Text],
    and with a regular file called [Documents] in [DOWNLOADS_DIR] the move
    of [notes.txt] fails; the failure is printed, move_file returns, and
    the file is where it was, in the directory of no category. *)
Lemma move_file_first_match_counterexample :
  let rules := [("Images", [".png"]); ("Documents", [".pdf"; ".txt"]); ("Text", [".txt"])]%string in
  let m : gmap string node := <["notes.txt" := File "n"]> (<["Documents" := File ""]> ∅) in
  let w' := add_line (MoveError "notes.txt" ENOTDIR) (world0 m) in
  classify rules ".txt" = Some "Documents"%string
  ∧ move_file_items rules ".txt" "notes.txt" ["notes.txt"%string] (world0 m) = (Ok tt, w')
  ∧ path_exists ["notes.txt"%string] w' = true
  ∧ ∀ c name, path_exists [c; name] w' = false.
Proof.
  intros rules m w'. split_and!; [vm_compute; reflexivity..|].
  intros c name. unfold path_exists, fs_lookup. simpl.
  destruct (m !! c) as [[data|d]|] eqn:Hc; [done| |done].
  exfalso. unfold m in Hc.
  repeat (apply lookup_insert_Some in Hc as [[_ [=]]|[_ Hc]]).
  by rewrite lookup_empty in Hc.
Qed.

(** ** A file on its way to its category *)

Section journey.
Variable r : syscall → option oserror.
Variables f data c : string.
Hypothesis f_shown : hidden f = false.
Hypothesis f_category : classify EXTENSION_MAP (extension_of f) = Some c.
Hypothesis mkdir_granted : ∀ p, r (SysMkdir p) = None.
Hypothesis move_granted : ∀ dst, r (SysRename [f] dst) = None.
Hypothesis print_granted : ∀ g, r (SysPrint g) = None.
Implicit Types (m : gmap string node) (g : string).




Lemma stepped_waiting g m res m1 lines :
  g ≠ f → stepped r g m res m1 lines → waiting f data c m → waiting f data c m1.
Proof.
  intros Hgf Hstep [Hf Hc].
  destruct Hstep as [_|cg res0 lines0 res m1 lines Hnodir _ Hcg Hplaced _]; [done|].
  assert (∀ m1, ensured r cg m m1 →
            m1 !! c = None ∨ ∃ d, m1 !! c = Some (Dir d)) as Hc1.
  { intros m0 [[_ ->]|(_ & _ & ->)]; [done|].
    destruct (decide (cg = c)) as [->|Hne].
    - rewrite lookup_insert_eq. eauto.
    - by rewrite lookup_insert_ne. }
  destruct Hplaced as [e _ _|m1 e Hens _|m1 d n k Hens Hcg1 Hg Hne _ _ _].
  - done.
  - split; [by eapply ensured_lookup | by apply Hc1].
  - pose proof (ensured_lookup r cg m m1 f _ Hens Hf) as Hf1.
    assert (f ≠ cg) as Hfcg by congruence.
    split.
    + by rewrite lookup_insert_ne, lookup_delete_ne.
    + destruct (decide (cg = c)) as [->|Hcgc].
      { rewrite lookup_insert_eq. eauto. }
      rewrite lookup_insert_ne by done.
      assert (g ≠ c) as Hgc.
      { intros ->. destruct Hc as [Hc|[d' Hc]]; [|by apply (Hnodir d')].
        destruct Hens as [[_ ->]|(_ & _ & ->)]; [congruence|].
        rewrite lookup_insert_ne in Hg by done. congruence. }
      rewrite lookup_delete_ne by done. by apply Hc1.
Qed.



Lemma ran_waiting names m res m1 lines :
  f ∉ names → ran r names m res m1 lines → waiting f data c m → waiting f data c m1.
Proof.
  intros Hnotin Hran. induction Hran as [|g ? ? ? ? ? ? ? Hstep _ IH|g ? ? ? ? ? Hstep].
  - done.
  - apply not_elem_of_cons in Hnotin as [Hfg Hnotin].
    intros Hw. apply IH; [done|]. by eapply stepped_waiting.
  - apply not_elem_of_cons in Hnotin as [Hfg _].
    by eapply stepped_waiting.
Qed.



End journey.

Lemma keys_elem_of (m : gmap string node) (x : string) :
  x ∈ keys m ↔ is_Some (m !! x).
Proof.
  unfold keys. rewrite list_elem_of_fmap. split.
  - intros ([x' n] & -> & Hin). apply elem_of_map_to_list in Hin. eauto.
  - intros [n Hx]. exists (x, n). split; [done | by apply elem_of_map_to_list].
Qed.

(** ** The claims on sort_files *)




(** C2 (sort_files, lines 50-54, and move_file, lines 93-112).  An entry
    of [DOWNLOADS_DIR] that is a directory, or whose name starts with a
    dot, or whose extension no category lists (none included), is in
    place after the rescan, however it ends: a file with its content, a
    directory with all its entries; only the directory of a category
    may have gained entries. *)
Theorem sort_files_frame (w : world) (m : gmap string node) (x : string) (n : node) :
  disk w = Some (Dir m) →
  m !! x = Some n →
  protected x n →
  ∃ m', disk (sort_files w).2 = Some (Dir m') ∧ kept x n (m' !! x).
Proof.
  destruct w as [dsk ls r out]. simpl. intros -> Hx Hprot.
  change (World (Some (Dir m)) ls r out) with (rootw ls m r out).
  rewrite sort_files_run.
  destruct (sort_files_loop_run ls r (ls m) m out) as (res & m' & lines & Hran & ->).
  exists m'. split; [done|]. by eapply ran_frame.
Qed.

Lemma sort_files_frame_witness :
  let m : gmap string node :=
    <[".gitkeep" := File ""]> (<["Misc" := Dir ∅]> (<["photo.PNG" := File "x"]> ∅)) in
  ∃ m', disk (sort_files (world0 m)).2 = Some (Dir m')
        ∧ kept "Misc" (Dir ∅) (m' !! "Misc").
Proof.
  intros m. apply (sort_files_frame (world0 m) m "Misc" (Dir ∅)).
  - reflexivity.
  - vm_compute. reflexivity.
  - left. by exists ∅.
Defined.

(** ** Failures *)

Lemma sort_files_loop_app (names1 names2 : list string) (w : world) :
  sort_files_loop (names1 ++ names2) w =
  match sort_files_loop names1 w with
  | (Ok _, w') => sort_files_loop names2 w'
  | r => r
  end.
Proof.
  revert w. induction names1 as [|f names1 IH]; intros w; [done|].
  rewrite <-app_comm_cons.
  rewrite (sort_files_loop_cons f (names1 ++ names2)), (sort_files_loop_cons f names1).
  destruct (sort_files_loop [f] w) as [[[]|e|] w']; [|done..].
  rewrite IH. by destruct (sort_files_loop names1 w') as [[[]|e|] w''].
Qed.

(** A move that fails does not end the rescan when its line can be
    printed: when, after the names before it, [filename] is up, is to be
    moved (line 52, lines 93-96), its directory is there or created
    (lines 99-100), [shutil.move] to the destination get_unique_path
    gives raises [e], and the standard output takes the name, then the
    file name and [e] are printed and the loop goes on with the names
    after it. *)
Lemma sort_files_loop_move_failure (names1 names2 : list string) (filename folder_name : string)
    (w w1 w2 w3 : world) (final_destination : path) (e : oserror) :
  sort_files_loop names1 w = (Ok tt, w1) →
  is_dir [filename] w1 = false →
  hidden filename = false →
  classify EXTENSION_MAP (extension_of filename) = Some folder_name →
  (if path_exists [folder_name] w1 then ret tt else os_makedirs [folder_name]) w1 = (Ok tt, w2) →
  get_unique_path [folder_name] filename w2 = (Ok final_destination, w2) →
  shutil_move [filename] final_destination w2 = (Raise e, w3) →
  refuses w3 (SysPrint filename) = None →
  sort_files_loop (names1 ++ filename :: names2) w
  = sort_files_loop names2 (add_line (MoveError filename e) w3).
Proof.
  intros Hbefore Hnodir Hshown Hcat Hdir Hdest Hmove Hprint.
  rewrite sort_files_loop_app, Hbefore, sort_files_loop_cons.
  assert (sort_files_loop [filename] w1 = (Ok tt, add_line (MoveError filename e) w3)) as ->; [|done].
  simpl. unfold bind at 1, os_path_isdir, os_path_join, DOWNLOADS_DIR. simpl.
  rewrite Hnodir. fold (hidden filename). rewrite Hshown. simpl.
  unfold move_file. rewrite move_file_items_classify.
  fold (extension_of filename). rewrite Hcat.
  unfold place, os_path_join, DOWNLOADS_DIR. simpl.
  unfold bind, os_path_exists. cbv beta. rewrite Hdir, Hdest.
  unfold try_except, time_sleep, ret, print. rewrite Hmove. simpl. by rewrite Hprint.
Qed.

(** C4 is not what the code does for every name (lines 108-112): the
    [print] of line 111 stands in the handler, under no [try] of its
    own, so when the standard output cannot show the name of the file
    whose move failed, its [UnicodeEncodeError] leaves move_file and
    sort_files.  Here a regular file called [Images] makes the move of
    [café.png] fail, and the standard output is in the code page 1251,
    which has no code for the e with its accent: the failure is not
    printed, the rescan ends with the exception, and
    [b.pdf], listed after it and bound for [Documents], is not looked
    at; the loop on [b.pdf] alone would have moved it. *)
Lemma unprintable_failure_aborts :
  let m : gmap string node :=
    <[cafe_png := File "x"]> (<["Images" := File ""]> (<["b.pdf" := File "y"]> ∅)) in
  let w := {| disk := Some (Dir m); listing := keys; refuses := cp1251_stdout; stdout := [] |} in
  listing w m = [cafe_png; "Images"; "b.pdf"]%string
  ∧ shutil_move [cafe_png] ["Images"%string; cafe_png] w = (Raise ENOTDIR, w)
  ∧ sort_files w = (Raise UnicodeEncodeError, w)
  ∧ stdout (sort_files w).2 = []
  ∧ path_exists ["b.pdf"%string] (sort_files w).2 = true
  ∧ ∃ w', sort_files_loop ["b.pdf"%string] w = (Ok tt, w')
          ∧ path_exists ["Documents"; "b.pdf"]%string w' = true
          ∧ path_exists ["b.pdf"%string] w' = false.
Proof.
  intros m w. split_and!; [vm_compute; reflexivity..|].
  eexists. split_and!; vm_compute; reflexivity.
Qed.

(** C5 is not what the code does (lines 97-103): [os.makedirs] is called
    outside the [try], so a refused creation of [Images] leaves move_file
    and sort_files as an exception.  Nothing is printed, and [b.pdf],
    next in the listing and bound for [Documents], which exists, is not
    looked at; the loop on [b.pdf] alone would have moved it. *)
Lemma makedirs_failure_aborts :
  let m : gmap string node :=
    <["a.png" := File "x"]> (<["b.pdf" := File "y"]> (<["Documents" := Dir ∅]> ∅)) in
  let w := {| disk := Some (Dir m); listing := keys; refuses := no_images; stdout := [] |} in
  listing w m = ["a.png"; "b.pdf"; "Documents"]%string
  ∧ sort_files w = (Raise ENOSPC, w)
  ∧ path_exists ["b.pdf"%string] (sort_files w).2 = true
  ∧ ∃ w', sort_files_loop ["b.pdf"%string] w = (Ok tt, w')
          ∧ path_exists ["Documents"; "b.pdf"]%string w' = true
          ∧ path_exists ["b.pdf"%string] w' = false.
Proof.
  intros m w. split_and!; [vm_compute; reflexivity..|].
  eexists. split_and!; vm_compute; reflexivity.
Qed.

(** The listing that fails (C6): sort_files raises the error of
    [os.listdir] to its caller, and so does on_modified; nothing has
    been touched or printed. *)
Lemma sort_files_listing_error (w : world) (e : oserror) :
  fs_walk DOWNLOADS_DIR (disk w) = inl e ∨
  ((∃ data, disk w = Some (File data)) ∧ e = ENOTDIR) →
  sort_files w = (Raise e, w)
  ∧ on_modified {| kind := EVENT_TYPE_MODIFIED; is_directory := false |} w = (Raise e, w).
Proof.
  unfold on_modified, sort_files, bind, os_listdir. simpl.
  intros [Hwalk|[[data Hfile] ->]].
  - by rewrite Hwalk.
  - by rewrite Hfile.
Qed.

Lemma sort_files_without_directory (w : world) :
  disk w = None → sort_files w = (Raise ENOENT, w).
Proof. intros Hgone. unfold sort_files, bind, os_listdir. simpl. by rewrite Hgone. Qed.

(** ** Notifications *)

(** C8, as amended (on_modified, lines 34-42).  A rescan is what a
    notification of kind modified that does not concern a directory
    does; a notification that concerns a directory, or of another kind,
    does nothing. *)
Theorem dispatch_rescans (ev : event) (w : world) :
  dispatch ev w =
  match kind ev, is_directory ev with
  | EVENT_TYPE_MODIFIED, false => sort_files w
  | _, _ => (Ok tt, w)
  end.
Proof. by destruct ev as [[] []]. Qed.

(** C8 as stated fails: the notification that [DOWNLOADS_DIR] itself was
    modified starts no rescan, and [photo.png], which a rescan would
    move, stays. *)
Lemma dispatch_rescans_counterexample :
  let w := world0 (<["photo.png" := File "x"]> ∅) in
  let ev := {| kind := EVENT_TYPE_MODIFIED; is_directory := true |} in
  dispatch ev w = (Ok tt, w)
  ∧ on_modified ev w = (Ok tt, w)
  ∧ path_exists ["photo.png"%string] w = true
  ∧ path_exists ["photo.png"%string] (sort_files w).2 = false
  ∧ path_exists ["Images"; "photo.png"]%string (sort_files w).2 = true.
Proof. intros w ev. split_and!; vm_compute; reflexivity. Qed.

(** ** A second rescan *)

Lemma failures_app (l1 l2 : list line) :
  failures (l1 ++ l2) = failures l1 + failures l2.
Proof. induction l1 as [|[] l1 IH]; simpl; lia. Qed.

(** After a rescan that returned and reported no failure, every entry
    still to be listed is one the loop passes over. *)
Lemma ran_settles (r : syscall → option oserror) (names : list string)
    (m m' : gmap string node) (res : result unit) (lines : list line) :
  ran r names m res m' lines →
  res = Ok tt → failures lines = 0 →
  (∀ x, is_Some (m !! x) → x ∈ names ∨ inert m x) →
  ∀ x, is_Some (m' !! x) → inert m' x.
Proof.
  induction 1 as [m|f names m m1 l1 res m2 l2 Hstep Hran IH|]; intros Hres Hquiet Hstart.
  - intros x Hx. by destruct (Hstart x Hx) as [?%elem_of_nil|?].
  - rewrite failures_app in Hquiet. apply IH; [done | lia |].
    intros x Hx1.
    inversion Hstep as [Hskip|c res0 lines0 res1 m1' l1' Hnodir Hshown Hcat Hplaced Hprinted];
      subst.
    { destruct (Hstart x Hx1) as [[->|?]%elem_of_cons|?]; [by right | by left | by right]. }
    inversion Hprinted as [res'|res' l _|]; subst; [by inversion Hplaced|].
    inversion Hplaced as [|m0 e _ _|m0 d n k Hens Hc Hf Hne _ _ _]; subst.
    { simpl in Hquiet. lia. }
    destruct (decide (x = c)) as [->|Hxc].
    { right. left. rewrite lookup_insert_eq. eauto. }
    rewrite lookup_insert_ne in Hx1 by done.
    destruct (decide (x = f)) as [->|Hxf].
    { rewrite lookup_delete_eq in Hx1. by destruct Hx1. }
    rewrite lookup_delete_ne in Hx1 by done.
    assert (m0 !! x = m !! x) as Hsame.
    { destruct Hens as [[_ ->]|(_ & _ & ->)]; [done | by rewrite lookup_insert_ne]. }
    rewrite Hsame in Hx1.
    destruct (Hstart x Hx1) as [[->|?]%elem_of_cons|[[d' Hd]|Hin]].
    + done.
    + by left.
    + right. left. exists d'.
      by rewrite lookup_insert_ne, lookup_delete_ne, Hsame.
    + right. by right.
  - done.
Qed.

(** The loop over names it passes over does nothing. *)
Lemma sort_files_loop_inert (ls : gmap string node → list string)
    (r : syscall → option oserror) (names : list string)
    (m : gmap string node) (out : list line) :
  (∀ x, x ∈ names → inert m x) →
  sort_files_loop names (rootw ls m r out) = (Ok tt, rootw ls m r out).
Proof.
  induction names as [|f names IH]; intros Hinert; [done|].
  rewrite sort_files_loop_cons.
  assert (sort_files_loop [f] (rootw ls m r out) = (Ok tt, rootw ls m r out)) as ->.
  { simpl. unfold bind at 1, os_path_isdir, DOWNLOADS_DIR, os_path_join. simpl.
    rewrite is_dir_root. fold (hidden f).
    destruct (Hinert f) as [[d ->]|[->|Hcat]]; [by left|done| |].
    - by rewrite orb_true_r.
    - destruct (_ || _); [done|].
      unfold bind. by rewrite move_file_run, Hcat. }
  apply IH. intros x Hx. apply Hinert. by right.
Qed.

(** C9, as amended (sort_files, lines 44-54).  After a rescan that
    returned and reported no failure, a second rescan is a no-op: it
    returns, and the file tree and what has been printed are as the
    first left them. *)
Theorem sort_files_twice (w w1 : world) :
  faithful w →
  sort_files w = (Ok tt, w1) →
  failures (stdout w1) = failures (stdout w) →
  sort_files w1 = (Ok tt, w1).
Proof.
  destruct w as [[[data|m]|] ls r out]; unfold faithful; simpl; intros Hls; [done| |done].
  change (World (Some (Dir m)) ls r out) with (rootw ls m r out).
  rewrite sort_files_run.
  destruct (sort_files_loop_run ls r (ls m) m out) as (res & m' & lines & Hran & ->).
  intros [= -> <-]. simpl. rewrite failures_app. intros Hquiet.
  rewrite sort_files_run. apply sort_files_loop_inert.
  intros x Hx. rewrite Hls in Hx. apply keys_elem_of in Hx. revert x Hx.
  eapply ran_settles; [done | done | lia |].
  intros x Hx. left. rewrite Hls. by apply keys_elem_of.
Qed.

Lemma sort_files_twice_witness :
  let w := world0 (<[".gitkeep" := File ""]> (<["Misc" := Dir ∅]> (<["photo.PNG" := File "x"]> ∅))) in
  sort_files (sort_files w).2 = (Ok tt, (sort_files w).2).
Proof.
  intros w. apply (sort_files_twice w (sort_files w).2).
  - intros m. reflexivity.
  - vm_compute. reflexivity.
  - vm_compute. reflexivity.
Defined.

(** C9 as stated fails: with a regular file called [Images] in
    [DOWNLOADS_DIR], the move of [photo.png] fails in the first rescan
    and again in the second one, which prints the failure once more. *)
Lemma sort_files_twice_counterexample :
  let w := world0 (<["photo.png" := File "x"]> (<["Images" := File ""]> ∅)) in
  let w1 := add_line (MoveError "photo.png" ENOTDIR) w in
  let w2 := add_line (MoveError "photo.png" ENOTDIR) w1 in
  sort_files w = (Ok tt, w1)
  ∧ sort_files w1 = (Ok tt, w2)
  ∧ stdout w1 = [MoveError "photo.png" ENOTDIR]
  ∧ stdout w2 = [MoveError "photo.png" ENOTDIR; MoveError "photo.png" ENOTDIR]
  ∧ w2 ≠ w1.
Proof.
  intros w w1 w2. split_and!; [vm_compute; reflexivity..|].
  intros Heq. apply (f_equal stdout) in Heq. vm_compute in Heq. discriminate.
Qed.

(** ** The scenarios of the specification *)

(** [photo.PNG] goes to [Images/photo.PNG]: the extension is matched in
    lower case, the name keeps its case. *)
Example scenario_mixed_case :
  let w := world0 (<["photo.PNG" := File "x"]> ∅) in
  (sort_files w).1 = Ok tt
  ∧ fs_lookup ["Images"; "photo.PNG"]%string (disk (sort_files w).2) = Some (File "x")
  ∧ fs_lookup ["photo.PNG"%string] (disk (sort_files w).2) = None
  ∧ stdout (sort_files w).2 = [Moved "photo.PNG" "photo.PNG"].
Proof. intros w. split_and!; vm_compute; reflexivity. Qed.

(** [archive.zip] beside an [Archives/archive.zip] becomes
    [Archives/archive(1).zip]; the one that was there stays. *)
Example scenario_collision :
  let w := world0 (<["archive.zip" := File "new"]>
                     (<["Archives" := Dir (<["archive.zip" := File "old"]> ∅)]> ∅)) in
  (sort_files w).1 = Ok tt
  ∧ fs_lookup ["Archives"; "archive(1).zip"]%string (disk (sort_files w).2) = Some (File "new")
  ∧ fs_lookup ["Archives"; "archive.zip"]%string (disk (sort_files w).2) = Some (File "old")
  ∧ fs_lookup ["archive.zip"%string] (disk (sort_files w).2) = None.
Proof. intros w. split_and!; vm_compute; reflexivity. Qed.

(** A hidden file and an empty folder stay exactly where they were. *)
Example scenario_hidden_and_folder :
  let w := world0 (<[".gitkeep" := File ""]> (<["Misc" := Dir ∅]> ∅)) in
  sort_files w = (Ok tt, w).
Proof. intros w. vm_compute. reflexivity. Qed.

(** [report.pdf] placed where [report.pdf] is gets [report(1).pdf], and
    [report(2).pdf] once that one is there too. *)
Example scenario_numbering :
  let d1 : gmap string node := <["report.pdf" := File "a"]> ∅ in
  let d2 : gmap string node := <["report(1).pdf" := File "b"]> d1 in
  (get_unique_path ["Documents"%string] "report.pdf" (world0 (<["Documents" := Dir d1]> ∅))).1
  = Ok ["Documents"; "report(1).pdf"]%string
  ∧ (get_unique_path ["Documents"%string] "report.pdf" (world0 (<["Documents" := Dir d2]> ∅))).1
    = Ok ["Documents"; "report(2).pdf"]%string.
Proof. intros d1 d2. split; vm_compute; reflexivity. Qed.

(** What [os.path.splitext] and the classification make of some names. *)
Example scenario_names :
  splitext "archive.tar.gz" = ("archive.tar", ".gz")%string
  ∧ splitext ".bashrc" = (".bashrc", "")%string
  ∧ splitext "README" = ("README", "")%string
  ∧ splitext "a." = ("a", ".")%string
  ∧ splitext "x..y" = ("x.", ".y")%string
  ∧ splitext "..." = ("...", "")%string
  ∧ splitext ".a.b" = (".a", ".b")%string
  ∧ splitext "a.b/c" = ("a.b/c", "")%string
  ∧ lower "PhOtO.JPeG" = "photo.jpeg"%string
  ∧ classify EXTENSION_MAP (extension_of "movie.MkV") = Some "Video"%string
  ∧ classify EXTENSION_MAP (extension_of "notes.md") = None
  ∧ classify EXTENSION_MAP (extension_of "Makefile") = None.
Proof. split_and!; vm_compute; reflexivity. Qed.

(** * More on the handler *)

(** ** get_unique_path: bounds and edges *)

Lemma get_unique_path_index (w : world) (target_dir : path) (filename : string) (k : nat) :
  get_unique_path target_dir filename w
  = (Ok (os_path_join target_dir (candidate filename k)), w) →
  taken_at w target_dir filename k = false
  ∧ ∀ j, j < k → taken_at w target_dir filename j = true.
Proof.
  intros Hget.
  destruct (get_unique_path_least w target_dir filename) as (k' & Htaken & Hfree & Hget' & _).
  assert (k' = k) as <-; [|done].
  apply (candidate_inj filename), (os_path_join_inj target_dir). congruence.
Qed.

Lemma get_unique_path_free (w : world) (target_dir : path) (filename : string) :
  path_exists (os_path_join target_dir filename) w = false →
  get_unique_path target_dir filename w = (Ok (os_path_join target_dir filename), w).
Proof.
  intros Hfree.
  destruct (get_unique_path_least w target_dir filename) as (k & Htaken & _ & Hget & _).
  destruct k as [|k]; [done|].
  specialize (Htaken 0 ltac:(lia)). simpl in Htaken. congruence.
Qed.

(** The suffix get_unique_path gives is at most the number of entries
    of the target directory: a directory of [n] entries never leads to a
    name beyond [base(n).ext]. *)
Theorem get_unique_path_suffix_bound (w : world) (target_dir : path) (filename : string) :
  ∃ k, k ≤ size (dir_at target_dir w)
       ∧ get_unique_path target_dir filename w
         = (Ok (os_path_join target_dir (candidate filename k)), w).
Proof.
  destruct (candidate_first_free w target_dir filename) as (k & Hk & Hfree & Htaken).
  destruct (get_unique_path_least w target_dir filename) as (k' & Htaken' & Hfree' & Hget & _).
  exists k. split; [done|].
  assert (k' = k) as <-; [|done].
  unfold taken_at in *.
  destruct (lt_eq_lt_dec k k') as [[Hlt| ->]|Hlt]; [|done|].
  - rewrite Htaken' in Hfree by done. done.
  - rewrite Htaken in Hfree' by done. done.
Qed.

(** get_unique_path keeps the name exactly when it is free: the path
    returned is [target_dir/filename] if and only if nothing exists
    there. *)
Theorem get_unique_path_keeps_free_name (w : world) (target_dir : path) (filename : string) :
  path_exists (os_path_join target_dir filename) w = false
  ↔ get_unique_path target_dir filename w = (Ok (os_path_join target_dir filename), w).
Proof.
  split; [apply get_unique_path_free|].
  intros Hget. by destruct (get_unique_path_index w target_dir filename 0 Hget) as [Hfree _].
Qed.

(** When the target is no directory (it is missing, or a file),
    get_unique_path returns [target_dir/filename] as it is: nothing can
    exist below it, whatever the name. *)
Theorem get_unique_path_without_directory (w : world) (target_dir : path) (filename : string) :
  is_dir target_dir w = false →
  get_unique_path target_dir filename w = (Ok (os_path_join target_dir filename), w).
Proof.
  intros Hnodir. apply get_unique_path_free.
  apply not_true_is_false. rewrite path_exists_join.
  unfold dir_at. unfold is_dir in Hnodir.
  destruct (fs_lookup target_dir (disk w)) as [[data|m]|]; [|done|];
    rewrite lookup_empty; by intros [? ?].
Qed.

Lemma get_unique_path_without_directory_witness :
  let w := world0 (<["Images" := File ""]> ∅) in
  get_unique_path ["Images"%string] "photo.png" w
  = (Ok (os_path_join ["Images"%string] "photo.png"), w).
Proof.
  intros w. apply (get_unique_path_without_directory w ["Images"%string] "photo.png").
  vm_compute. reflexivity.
Defined.

(** ** What a rescan never does *)

Section never.
Variable r : syscall → option oserror.
Implicit Types (m : gmap string node) (f g x : string).

Lemma stepped_safe g m res m1 lines f data :
  stepped r g m res m1 lines → safe f data m → safe f data m1.
Proof.
  intros Hstep Hsafe.
  destruct Hstep as [_|cg res0 lines0 res m1 lines Hnodir _ Hcg Hplaced Hprinted]; [done|].
  destruct Hplaced as [e _ _|m1 e Hens _|m1 dg n kg Hens Hcg1 Hg Hne _ Hfree _]; [done| |].
  - destruct Hsafe as [Hf|(c & d & k & Hc & Hm & Hd)].
    + left. by eapply ensured_lookup.
    + right. exists c, d, k. split_and!; [done| |done]. by eapply ensured_lookup.
  - destruct Hsafe as [Hf|(c & d & k & Hc & Hm & Hd)].
    + pose proof (ensured_lookup r cg m m1 f _ Hens Hf) as Hf1.
      destruct (decide (g = f)) as [->|Hgf].
      * right. exists cg, (<[candidate f kg := n]> dg), kg.
        split_and!; [by eapply classify_category | by rewrite lookup_insert_eq |].
        rewrite lookup_insert_eq. congruence.
      * left. rewrite lookup_insert_ne by congruence.
        by rewrite lookup_delete_ne.
    + pose proof (ensured_lookup r cg m m1 c _ Hens Hm) as Hm1.
      right. destruct (decide (cg = c)) as [->|Hcgc].
      * exists c, (<[candidate g kg := n]> dg), k.
        split_and!; [done | by rewrite lookup_insert_eq |].
        assert (dg = d) as -> by congruence.
        rewrite lookup_insert_ne; [done | congruence].
      * exists c, d, k. split_and!; [done| |done].
        rewrite lookup_insert_ne by done.
        rewrite lookup_delete_ne; [done|]. intros ->. by apply (Hnodir d).
Qed.

Lemma ran_safe names m res m1 lines f data :
  ran r names m res m1 lines → safe f data m → safe f data m1.
Proof.
  induction 1 as [|g ? ? ? ? ? ? ? Hstep _ IH|g ? ? ? ? ? Hstep]; [done|..].
  - intros Hsafe. by eapply IH, stepped_safe.
  - by eapply stepped_safe.
Qed.

(** A file of [DOWNLOADS_DIR] after a step was there before it. *)
Lemma stepped_file_origin g m res m1 lines x data :
  stepped r g m res m1 lines → m1 !! x = Some (File data) → m !! x = Some (File data).
Proof.
  intros Hstep Hx.
  destruct Hstep as [_|cg res0 lines0 res m1 lines _ _ _ Hplaced Hprinted]; [done|].
  assert (∀ m0, ensured r cg m m0 → m0 !! x = Some (File data) → m !! x = Some (File data))
    as Hback.
  { intros m0 [[_ ->]|(_ & _ & ->)] Hx0; [done|].
    destruct (decide (cg = x)) as [->|Hne].
    - by rewrite lookup_insert_eq in Hx0.
    - by rewrite lookup_insert_ne in Hx0. }
  destruct Hplaced as [e _ _|m1 e Hens _|m1 dg n kg Hens _ _ _ _ _ _]; [done|by eapply Hback|].
  destruct (decide (cg = x)) as [->|Hne]; [by rewrite lookup_insert_eq in Hx|].
  rewrite lookup_insert_ne in Hx by done.
  destruct (decide (g = x)) as [->|Hgx]; [by rewrite lookup_delete_eq in Hx|].
  rewrite lookup_delete_ne in Hx by done. by eapply Hback.
Qed.

Lemma ran_file_origin names m res m1 lines x data :
  ran r names m res m1 lines → m1 !! x = Some (File data) → m !! x = Some (File data).
Proof.
  induction 1 as [|g ? ? ? ? ? ? ? Hstep _ IH|g ? ? ? ? ? Hstep]; [done|..].
  - intros Hx. by eapply stepped_file_origin, IH.
  - by eapply stepped_file_origin.
Qed.

(** An entry of [DOWNLOADS_DIR] after a step was there before it, or is
    the directory of a category. *)
Lemma stepped_entry_origin g m res m1 lines x :
  stepped r g m res m1 lines → is_Some (m1 !! x) →
  is_Some (m !! x) ∨ (x ∈ EXTENSION_MAP.*1 ∧ ∃ d, m1 !! x = Some (Dir d)).
Proof.
  intros Hstep Hx.
  destruct Hstep as [_|cg res0 lines0 res m1 lines _ _ Hcg Hplaced Hprinted]; [by left|].
  apply classify_category in Hcg.
  assert (∀ m0, ensured r cg m m0 → is_Some (m0 !! x) →
            is_Some (m !! x) ∨ (x = cg ∧ m0 !! x = Some (Dir ∅))) as Hback.
  { intros m0 [[_ ->]|(_ & _ & ->)] Hx0; [by left|].
    destruct (decide (cg = x)) as [->|Hne].
    - right. by rewrite lookup_insert_eq.
    - left. by rewrite lookup_insert_ne in Hx0. }
  destruct Hplaced as [e _ _|m1 e Hens _|m1 dg n kg Hens _ _ _ _ _ _]; [by left| |].
  - destruct (Hback m1 Hens Hx) as [?|[-> ?]]; [by left | right; eauto].
  - destruct (decide (cg = x)) as [->|Hne].
    { right. rewrite lookup_insert_eq. eauto. }
    rewrite lookup_insert_ne in Hx by done.
    destruct (decide (g = x)) as [->|Hgx]; [rewrite lookup_delete_eq in Hx; by destruct Hx|].
    rewrite lookup_delete_ne in Hx by done.
    destruct (Hback m1 Hens Hx) as [?|[-> ?]]; [by left | done].
Qed.

Lemma ran_entry_origin names m res m1 lines x :
  ran r names m res m1 lines → is_Some (m1 !! x) →
  is_Some (m !! x) ∨ (x ∈ EXTENSION_MAP.*1 ∧ ∃ d, m1 !! x = Some (Dir d)).
Proof.
  induction 1 as [|g names m m1 l1 res m2 l2 Hstep Hran IH|g ? ? ? ? ? Hstep]; [by left|..].
  - intros Hx. destruct (IH Hx) as [Hx1|?]; [|by right].
    destruct (stepped_entry_origin _ _ _ _ _ x Hstep Hx1) as [?|[Hcat [d Hd]]]; [by left|].
    right. split; [done|].
    pose proof (ran_frame r _ _ _ _ _ x (Dir d) Hran Hd) as Hkept.
    simpl in Hkept. rewrite bool_decide_eq_true_2 in Hkept by done.
    destruct Hkept as (d' & -> & _); [left|]; eauto.
  - by eapply stepped_entry_origin.
Qed.

End never.

(** No content is lost: whatever the listing, the refusals and the end
    of the rescan, the content of a file of [DOWNLOADS_DIR] is afterwards
    still there under its name, or in the directory of a category under
    one of its candidate names. *)
Theorem sort_files_keeps_content (w : world) (m : gmap string node) (f data : string) :
  disk w = Some (Dir m) →
  m !! f = Some (File data) →
  ∃ m', disk (sort_files w).2 = Some (Dir m') ∧ safe f data m'.
Proof.
  destruct w as [dsk ls r out]. simpl. intros -> Hf.
  change (World (Some (Dir m)) ls r out) with (rootw ls m r out).
  rewrite sort_files_run.
  destruct (sort_files_loop_run ls r (ls m) m out) as (res & m' & lines & Hran & ->).
  exists m'. split; [done|]. eapply ran_safe; [done | by left].
Qed.

Lemma sort_files_keeps_content_witness :
  let m : gmap string node :=
    <["a.png" := File "one"]> (<["a(1).png" := File "two"]>
      (<["Images" := Dir (<["a.png" := File "three"]> ∅)]> ∅)) in
  ∃ m', disk (sort_files (world0 m)).2 = Some (Dir m') ∧ safe "a(1).png" "two" m'.
Proof.
  intros m. apply (sort_files_keeps_content (world0 m) m "a(1).png" "two").
  - reflexivity.
  - vm_compute. reflexivity.
Defined.

(** A rescan puts nothing into [DOWNLOADS_DIR] but directories of
    categories: a file found there afterwards was there before with the
    same content, and any entry found there afterwards was there before
    or is the directory of a category. *)
Theorem sort_files_adds_only_categories (w : world) (m : gmap string node) :
  disk w = Some (Dir m) →
  ∃ m', disk (sort_files w).2 = Some (Dir m')
        ∧ (∀ x data, m' !! x = Some (File data) → m !! x = Some (File data))
        ∧ (∀ x, is_Some (m' !! x) →
             is_Some (m !! x) ∨ (x ∈ EXTENSION_MAP.*1 ∧ ∃ d, m' !! x = Some (Dir d))).
Proof.
  destruct w as [dsk ls r out]. simpl. intros ->.
  change (World (Some (Dir m)) ls r out) with (rootw ls m r out).
  rewrite sort_files_run.
  destruct (sort_files_loop_run ls r (ls m) m out) as (res & m' & lines & Hran & ->).
  exists m'. split_and!; [done| |].
  - intros x data. by eapply ran_file_origin.
  - intros x. by eapply ran_entry_origin.
Qed.

Lemma sort_files_adds_only_categories_witness :
  let m : gmap string node := <["photo.PNG" := File "x"]> (<["notes" := File "y"]> ∅) in
  ∃ m', disk (sort_files (world0 m)).2 = Some (Dir m')
        ∧ (∀ x data, m' !! x = Some (File data) → m !! x = Some (File data))
        ∧ (∀ x, is_Some (m' !! x) →
             is_Some (m !! x) ∨ (x ∈ EXTENSION_MAP.*1 ∧ ∃ d, m' !! x = Some (Dir d))).
Proof.
  intros m. apply (sort_files_adds_only_categories (world0 m) m). reflexivity.
Defined.

(** ** What the printed lines say *)

Section lines.
Variable r : syscall → option oserror.
Implicit Types (m : gmap string node) (f g b : string).

Lemma stepped_landed g m res m1 lines f b :
  stepped r g m res m1 lines → landed f b m → landed f b m1.
Proof.
  intros Hstep Hlanded.
  destruct Hstep as [_|cg res0 lines0 res m1 lines Hnodir _ Hcg Hplaced Hprinted]; [done|].
  pose proof Hlanded as (Hf & c & d & k & Hc & Hb & Hm & Hd).
  assert (f ≠ cg) as Hfcg.
  { intros ->. apply classify_category, category_unclassified in Hcg. congruence. }
  assert (∀ m0, ensured r cg m m0 → m0 !! f = None) as Hf1.
  { intros m0 [[_ ->]|(_ & _ & ->)]; [done|]. by rewrite lookup_insert_ne. }
  destruct Hplaced as [e _ _|m1 e Hens _|m1 dg n kg Hens Hcg1 Hg Hne _ _ _].
  - done.
  - split; [by apply Hf1|]. exists c, d, k. split_and!; [done..| |done].
    by eapply ensured_lookup.
  - pose proof (ensured_lookup r cg m m1 c _ Hens Hm) as Hm1.
    split.
    + rewrite lookup_insert_ne by done.
      destruct (decide (g = f)) as [->|Hgf]; [by rewrite lookup_delete_eq|].
      rewrite lookup_delete_ne by done. by apply Hf1.
    + destruct (decide (cg = c)) as [->|Hcgc].
      * exists c, (<[candidate g kg := n]> dg), k.
        split_and!; [done..| by rewrite lookup_insert_eq |].
        assert (dg = d) as -> by congruence.
        rewrite lookup_insert. case_decide; eauto.
      * exists c, d, k. split_and!; [done..| |done].
        rewrite lookup_insert_ne by done.
        rewrite lookup_delete_ne; [done|]. intros ->. by apply (Hnodir d).
Qed.

Lemma ran_landed names m res m1 lines f b :
  ran r names m res m1 lines → landed f b m → landed f b m1.
Proof.
  induction 1 as [|g ? ? ? ? ? ? ? Hstep _ IH|g ? ? ? ? ? Hstep]; [done|..].
  - intros Hl. by eapply IH, stepped_landed.
  - by eapply stepped_landed.
Qed.

Lemma stepped_lands g m res m1 lines f b :
  stepped r g m res m1 lines → Moved f b ∈ lines → landed f b m1.
Proof.
  intros Hstep Hin.
  destruct Hstep as [_|cg res0 lines0 res m1 lines _ _ Hcg Hplaced Hprinted];
    [by apply elem_of_nil in Hin|].
  apply (printed_elem_of _ _ _ _ _ _ _ Hprinted) in Hin.
  destruct Hplaced as [e _ _|m1 e _ _|m1 dg n kg _ _ _ Hne _ _ _].
  - by apply elem_of_nil in Hin.
  - by apply list_elem_of_singleton in Hin.
  - apply list_elem_of_singleton in Hin. injection Hin as -> ->.
    split; [by rewrite lookup_insert_ne, lookup_delete_eq|].
    exists cg, (<[candidate g kg := n]> dg), kg.
    by rewrite !lookup_insert_eq.
Qed.

Lemma ran_lands names m res m1 lines f b :
  ran r names m res m1 lines → Moved f b ∈ lines → landed f b m1.
Proof.
  induction 1 as [|g names m m1 l1 res m2 l2 Hstep Hran IH|g ? ? ? ? ? Hstep].
  - by intros ?%elem_of_nil.
  - intros [Hin|Hin]%elem_of_app; [|by apply IH].
    eapply ran_landed; [done|]. by eapply stepped_lands.
  - by eapply stepped_lands.
Qed.

End lines.

(** What is printed as moved has been moved: for every line
    [Moved f b] of a rescan, [f] is no longer in [DOWNLOADS_DIR] when
    the rescan ends, and the directory of its category has an entry [b],
    which is [f] or [f] with a numeric suffix. *)
Theorem sort_files_moved_lines (w : world) (m : gmap string node) :
  disk w = Some (Dir m) →
  ∃ m' lines,
    disk (sort_files w).2 = Some (Dir m')
    ∧ stdout (sort_files w).2 = stdout w ++ lines
    ∧ ∀ f b, Moved f b ∈ lines → landed f b m'.
Proof.
  destruct w as [dsk ls r out]. simpl. intros ->.
  change (World (Some (Dir m)) ls r out) with (rootw ls m r out).
  rewrite sort_files_run.
  destruct (sort_files_loop_run ls r (ls m) m out) as (res & m' & lines & Hran & ->).
  exists m', lines. split_and!; [done..|].
  intros f b. by eapply ran_lands.
Qed.

Lemma sort_files_moved_lines_witness :
  let m : gmap string node :=
    <["a.png" := File "one"]> (<["Images" := Dir (<["a.png" := File "three"]> ∅)]> ∅) in
  ∃ m' lines,
    disk (sort_files (world0 m)).2 = Some (Dir m')
    ∧ stdout (sort_files (world0 m)).2 = stdout (world0 m) ++ lines
    ∧ ∀ f b, Moved f b ∈ lines → landed f b m'.
Proof.
  intros m. apply (sort_files_moved_lines (world0 m) m). reflexivity.
Defined.

Section failed.
Variable r : syscall → option oserror.
Implicit Types (m : gmap string node) (f g x : string).

Lemma stepped_elsewhere g m res m1 lines x :
  g ≠ x → stepped r g m res m1 lines → is_Some (m !! x) → is_Some (m1 !! x).
Proof.
  intros Hgx Hstep [n Hx].
  destruct Hstep as [_|cg res0 lines0 res m1 lines _ _ _ Hplaced Hprinted]; [by eexists|].
  destruct Hplaced as [e _ _|m1 e Hens _|m1 dg n' kg Hens _ _ _ _ _ _]; [by eexists| |].
  - exists n. by eapply ensured_lookup.
  - rewrite lookup_insert. case_decide; [by eexists|].
    rewrite lookup_delete_ne by done. exists n. by eapply ensured_lookup.
Qed.

Lemma stepped_fails g m res m1 lines f e :
  stepped r g m res m1 lines → MoveError f e ∈ lines →
  f = g ∧ ∀ n, m !! g = Some n → ∃ data, n = File data ∧ m1 !! g = Some (File data).
Proof.
  intros Hstep Hin.
  destruct Hstep as [_|cg res0 lines0 res m1 lines Hnodir _ _ Hplaced Hprinted];
    [by apply elem_of_nil in Hin|].
  apply (printed_elem_of _ _ _ _ _ _ _ Hprinted) in Hin.
  destruct Hplaced as [e' _ _|m1 e' Hens _|m1 dg n' kg _ _ _ _ _ _ _].
  - by apply elem_of_nil in Hin.
  - apply list_elem_of_singleton in Hin. injection Hin as -> ->. split; [done|].
    intros [data|d] Hg; [|by destruct (Hnodir d)].
    exists data. split; [done | by eapply ensured_lookup].
  - by apply list_elem_of_singleton in Hin.
Qed.

Lemma stepped_file_stays g m res m1 lines x data :
  g ≠ x → stepped r g m res m1 lines →
  m !! x = Some (File data) → m1 !! x = Some (File data).
Proof.
  intros Hgx Hstep Hx.
  destruct Hstep as [_|cg res0 lines0 res m1 lines _ _ _ Hplaced Hprinted]; [done|].
  destruct Hplaced as [e _ _|m1 e Hens _|m1 dg n' kg Hens Hcg1 _ _ _ _ _]; [done| |].
  - by eapply ensured_lookup.
  - pose proof (ensured_lookup r cg m m1 x _ Hens Hx) as Hx1.
    rewrite lookup_insert_ne by congruence. by rewrite lookup_delete_ne.
Qed.

Lemma ran_file_stays names m res m1 lines x data :
  x ∉ names → ran r names m res m1 lines →
  m !! x = Some (File data) → m1 !! x = Some (File data).
Proof.
  intros Hnotin Hran. induction Hran as [|g ? ? ? ? ? ? ? Hstep _ IH|g ? ? ? ? ? Hstep].
  - done.
  - apply not_elem_of_cons in Hnotin as [Hne Hnotin].
    intros Hx. apply IH; [done|]. by eapply stepped_file_stays.
  - apply not_elem_of_cons in Hnotin as [Hne _]. by eapply stepped_file_stays.
Qed.

Lemma ran_fails names m res m1 lines f e :
  ran r names m res m1 lines →
  NoDup names → (∀ x, x ∈ names → is_Some (m !! x)) →
  MoveError f e ∈ lines →
  ∃ data, m !! f = Some (File data) ∧ m1 !! f = Some (File data).
Proof.
  induction 1 as [|g names m m1 l1 res m2 l2 Hstep Hran IH|g names m e' m1 l1 Hstep];
    intros Hnodup Hkeys Hin.
  - by apply elem_of_nil in Hin.
  - apply NoDup_cons in Hnodup as [Hg Hnodup].
    apply elem_of_app in Hin as [Hin|Hin].
    + destruct (stepped_fails _ _ _ _ _ _ _ Hstep Hin) as [-> Hfile].
      destruct (Hkeys g) as [n Hn]; [by left|].
      destruct (Hfile n Hn) as (data & -> & Hg1).
      exists data. split; [done | by eapply ran_file_stays].
    + destruct IH as (data & Hf1 & Hf2); [done| |done|].
      { intros x Hx. eapply stepped_elsewhere; [|done|apply Hkeys; by right].
        by intros ->. }
      exists data. split; [|done]. by eapply stepped_file_origin.
  - destruct (stepped_fails _ _ _ _ _ _ _ Hstep Hin) as [-> Hfile].
    destruct (Hkeys g) as [n Hn]; [by left|].
    destruct (Hfile n Hn) as (data & -> & Hg1). eauto.
Qed.

(** Every way [ran] ends: it returns, or it raises what the refused
    creation of the directory of a category raised, and that directory
    is not there, or what the refused [print] of a line for one of the
    names raised. *)
Lemma ran_result names m res m1 lines :
  ran r names m res m1 lines →
  res = Ok tt
  ∨ ∃ e, res = Raise e
         ∧ ((∃ c, c ∈ EXTENSION_MAP.*1 ∧ r (SysMkdir [c]) = Some e ∧ m1 !! c = None)
            ∨ ∃ f, f ∈ names ∧ r (SysPrint f) = Some e).
Proof.
  induction 1 as [|g names m m1 l1 res m2 l2 _ _ IH|g names m e m1 l1 Hstep]; [by left| |].
  - destruct IH as [->|(e & -> & [Hmk|(f & Hin & Hf)])]; [by left|right..].
    + exists e. split; [done | by left].
    + exists e. split; [done|]. right. exists f. split; [by right | done].
  - right. exists e. split; [done|].
    inversion Hstep as [|c ? ? ? ? ? _ _ Hcat Hplaced Hprinted]; subst.
    inversion Hprinted as [res'|res' l _|res' l e' He]; subst.
    + inversion Hplaced as [e' Hc He| |]; subst.
      left. exists c. split_and!; [by eapply classify_category | done..].
    + inversion Hplaced.
    + right. exists g. split; [by left | done].
Qed.

End failed.

(** What is printed as failed has stayed: for every line
    [MoveError f e] of a rescan, [f] was a file of [DOWNLOADS_DIR] and is
    still there with its content when the rescan ends. *)
Theorem sort_files_failed_lines (w : world) (m : gmap string node) :
  faithful w →
  disk w = Some (Dir m) →
  ∃ m' lines,
    disk (sort_files w).2 = Some (Dir m')
    ∧ stdout (sort_files w).2 = stdout w ++ lines
    ∧ ∀ f e, MoveError f e ∈ lines →
        ∃ data, m !! f = Some (File data) ∧ m' !! f = Some (File data).
Proof.
  destruct w as [dsk ls r out]. unfold faithful. simpl. intros Hls ->.
  change (World (Some (Dir m)) ls r out) with (rootw ls m r out).
  rewrite sort_files_run.
  destruct (sort_files_loop_run ls r (ls m) m out) as (res & m' & lines & Hran & ->).
  exists m', lines. split_and!; [done..|].
  intros f e. eapply ran_fails; [done| |].
  - rewrite Hls. apply NoDup_fst_map_to_list.
  - intros x Hx. rewrite Hls in Hx. by apply keys_elem_of.
Qed.

Lemma sort_files_failed_lines_witness :
  let m : gmap string node := <["photo.png" := File "x"]> (<["Images" := File ""]> ∅) in
  ∃ m' lines,
    disk (sort_files (world0 m)).2 = Some (Dir m')
    ∧ stdout (sort_files (world0 m)).2 = stdout (world0 m) ++ lines
    ∧ ∀ f e, MoveError f e ∈ lines →
        ∃ data, m !! f = Some (File data) ∧ m' !! f = Some (File data).
Proof.
  intros m. apply (sort_files_failed_lines (world0 m) m).
  - intros m'. reflexivity.
  - reflexivity.
Defined.

(** ** How a rescan ends *)

(** Where an exception of a rescan comes from.  A rescan ends: the loop
    of get_unique_path never exhausts its budget.  When it returns,
    [os.listdir] has returned.  When it raises, the exception is the one
    [os.listdir] raised, and nothing has been touched; or the one
    [os.makedirs] raised for the directory of a category, and that
    directory is not there; or the one [print] raised for a listed
    name.  A move that fails is never what makes sort_files raise. *)
Theorem sort_files_outcome (w : world) :
  match sort_files w with
  | (Ok _, w') => ∃ names, os_listdir DOWNLOADS_DIR w = (Ok names, w)
  | (Raise e, w') =>
      (os_listdir DOWNLOADS_DIR w = (Raise e, w) ∧ w' = w)
      ∨ (∃ c, c ∈ EXTENSION_MAP.*1 ∧ refuses w (SysMkdir [c]) = Some e
              ∧ path_exists [c] w' = false)
      ∨ (∃ names f, os_listdir DOWNLOADS_DIR w = (Ok names, w) ∧ f ∈ names
                    ∧ refuses w (SysPrint f) = Some e)
  | (OutOfFuel, _) => False
  end.
Proof.
  destruct w as [[[data|m]|] ls r out]; [by left| |by left].
  change (World (Some (Dir m)) ls r out) with (rootw ls m r out).
  rewrite sort_files_run.
  destruct (sort_files_loop_run ls r (ls m) m out) as (res & m' & lines & Hran & ->).
  destruct (ran_result r _ _ _ _ _ Hran)
    as [->|(e & -> & [(c & Hc & He & Hgone)|(f & Hin & Hf)])]; [by eexists|right..].
  - left. exists c. split_and!; [done..|].
    unfold path_exists, fs_lookup. simpl. by rewrite Hgone.
  - right. by exists (ls m), f.
Qed.

(** When there is nothing to sort, a rescan does nothing: in a directory
    whose entries are all directories, hidden names or names of no
    category, it returns with the tree as it was, no directory created
    and nothing printed. *)
Theorem sort_files_nothing_to_sort (w : world) (m : gmap string node) :
  faithful w →
  disk w = Some (Dir m) →
  (∀ x n, m !! x = Some n → protected x n) →
  sort_files w = (Ok tt, w).
Proof.
  destruct w as [dsk ls r out]. unfold faithful. simpl. intros Hls -> Hall.
  change (World (Some (Dir m)) ls r out) with (rootw ls m r out).
  rewrite sort_files_run. apply sort_files_loop_inert.
  intros x Hx. rewrite Hls in Hx. apply keys_elem_of in Hx as [n Hn].
  destruct (Hall x n Hn) as [[d ->]|Hrest]; [left; eauto | by right].
Qed.

Lemma sort_files_nothing_to_sort_witness :
  let m : gmap string node :=
    <[".hidden.png" := File "a"]> (<["notes.md" := File "b"]>
      (<["Makefile" := File "c"]> (<["old.zip" := Dir ∅]> ∅))) in
  sort_files (world0 m) = (Ok tt, world0 m).
Proof.
  intros m. apply (sort_files_nothing_to_sort (world0 m) m).
  - intros m'. reflexivity.
  - reflexivity.
  - intros x n Hx. unfold m in Hx.
    repeat (apply lookup_insert_Some in Hx as [[<- <-]|[_ Hx]]).
    + right. left. reflexivity.
    + right. right. vm_compute. reflexivity.
    + right. right. vm_compute. reflexivity.
    + left. by exists ∅.
    + by rewrite lookup_empty in Hx.
Defined.

(** ** move_file on its own *)

(** A name of no category: move_file does nothing at all, whatever the
    world and the path given; not even a directory is looked for. *)
Theorem move_file_unclassified (filename : string) (file_path : path) (w : world) :
  classify EXTENSION_MAP (extension_of filename) = None →
  move_file filename file_path w = (Ok tt, w).
Proof.
  intros Hnone. unfold move_file. rewrite move_file_items_classify.
  fold (extension_of filename). by rewrite Hnone.
Qed.

Lemma move_file_unclassified_witness :
  move_file "notes.md" ["elsewhere"; "notes.md"]%string (world0 ∅) = (Ok tt, world0 ∅).
Proof.
  apply (move_file_unclassified "notes.md" ["elsewhere"; "notes.md"]%string (world0 ∅)).
  vm_compute. reflexivity.
Defined.

(** A file that has vanished since the listing: move_file still makes
    sure of the directory of its category (creating it, empty, when it
    was missing), then the move fails for want of the file, and, the
    standard output taking the name, the failure is printed and
    move_file returns. *)
Theorem move_file_vanished (w : world) (m : gmap string node) (filename folder_name : string) :
  disk w = Some (Dir m) →
  m !! filename = None →
  classify EXTENSION_MAP (extension_of filename) = Some folder_name →
  refuses w (SysMkdir [folder_name]) = None →
  refuses w (SysPrint filename) = None →
  move_file filename [filename] w
  = (Ok tt,
     add_line (MoveError filename ENOENT)
       (set_disk (Some (Dir (match m !! folder_name with
                             | Some _ => m
                             | None => <[folder_name := Dir ∅]> m
                             end))) w)).
Proof.
  destruct w as [dsk ls r out]. intros Hdisk Hgone Hcat Hmkdir Hprint.
  simpl in Hdisk, Hmkdir, Hprint. subst dsk.
  change (World (Some (Dir m)) ls r out) with (rootw ls m r out).
  rewrite move_file_run, Hcat.
  unfold place, DOWNLOADS_DIR, os_path_join. simpl.
  unfold bind at 1. unfold os_path_exists at 1. unfold bind at 1.
  rewrite ensure_run.
  set (m1 := match m !! folder_name with Some _ => m | None => <[folder_name := Dir ∅]> m end).
  assert (match m !! folder_name with
          | Some _ => (Ok tt, rootw ls m r out)
          | None =>
              match r (SysMkdir [folder_name]) with
              | Some e => (Raise e, rootw ls m r out)
              | None => (Ok tt, rootw ls (<[folder_name := Dir ∅]> m) r out)
              end
          end = (Ok tt, rootw ls m1 r out)) as ->.
  { unfold m1. destruct (m !! folder_name); [done | by rewrite Hmkdir]. }
  assert (m1 !! filename = None) as Hgone1.
  { unfold m1. destruct (m !! folder_name) eqn:Hc; [done|].
    rewrite lookup_insert_ne; [done|]. intros ->.
    pose proof (category_unclassified _ (classify_category _ _ Hcat)). congruence. }
  unfold bind at 1.
  destruct (get_unique_path_run ls r m1 out folder_name filename) as (k & -> & _ & Hfree).
  rewrite dir_at_root in Hfree.
  unfold try_except, time_sleep, bind, ret.
  rewrite shutil_move_run by done. rewrite Hgone1.
  unfold print. simpl. by rewrite Hprint.
Qed.

Lemma move_file_vanished_witness :
  let w := world0 ∅ in
  move_file "gone.pdf" ["gone.pdf"%string] w
  = (Ok tt,
     add_line (MoveError "gone.pdf" ENOENT)
       (set_disk (Some (Dir (match (∅ : gmap string node) !! "Documents" with
                             | Some _ => ∅
                             | None => <["Documents" := Dir ∅]> ∅
                             end))) w)).
Proof.
  intros w. apply (move_file_vanished w ∅ "gone.pdf" "Documents").
  - reflexivity.
  - reflexivity.
  - vm_compute. reflexivity.
  - reflexivity.
  - reflexivity.
Defined.

(** ** Names: letter case and numbered names *)

Lemma lower_char_keeps (c t : ascii) :
  t = "."%char ∨ t = "/"%char → Ascii.eqb (lower_char c) t = Ascii.eqb c t.
Proof.
  intros [-> | ->]; by destruct c as [[] [] [] [] [] [] [] []].
Qed.

Lemma lower_char_idemp (c : ascii) : lower_char (lower_char c) = lower_char c.
Proof. by destruct c as [[] [] [] [] [] [] [] []]. Qed.

Lemma lower_idemp (s : string) : lower (lower s) = lower s.
Proof.
  induction s as [|a s IH]; simpl; [done|]. by rewrite lower_char_idemp, IH.
Qed.

Lemma rfind_lower (t : ascii) (s : string) :
  t = "."%char ∨ t = "/"%char → rfind t (lower s) = rfind t s.
Proof.
  intros Ht. induction s as [|a s IH]; simpl; [done|].
  by rewrite IH, lower_char_keeps.
Qed.

Lemma all_eq_lower (s : string) : all_eq "." (lower s) = all_eq "." s.
Proof.
  induction s as [|a s IH]; simpl; [done|].
  rewrite IH, lower_char_keeps; [done | by left].
Qed.

Lemma length_lower (s : string) : String.length (lower s) = String.length s.
Proof. induction s as [|a s IH]; simpl; [done | by rewrite IH]. Qed.

Lemma substring_lower (i n : nat) (s : string) :
  String.substring i n (lower s) = lower (String.substring i n s).
Proof.
  revert i n. induction s as [|a s IH]; intros [|i] [|n]; simpl; try done.
  - by rewrite IH.
Qed.

(** [os.path.splitext] and [str.lower] commute. *)
Lemma splitext_lower (s : string) :
  splitext (lower s) = (lower (splitext s).1, lower (splitext s).2).
Proof.
  unfold splitext, slice.
  rewrite !rfind_lower by auto.
  destruct (rfind "." s) as [d|]; [|done].
  rewrite substring_lower, all_eq_lower, length_lower.
  case_match; simpl; [|done]. by rewrite !substring_lower.
Qed.

Lemma extension_of_lower (s : string) : extension_of (lower s) = extension_of s.
Proof. unfold extension_of. rewrite splitext_lower. simpl. apply lower_idemp. Qed.

(** The category does not depend on the case of the letters: two names
    of the characters below U+0100, on which [str.lower] works character
    by character, that differ in case only are given the same category,
    whatever the rules. *)
Theorem classify_ignores_case (rules : list (string * list string)) (f g : string) :
  lower f = lower g →
  classify rules (extension_of f) = classify rules (extension_of g).
Proof.
  intros Hcase. by rewrite <-(extension_of_lower f), <-(extension_of_lower g), Hcase.
Qed.

Lemma classify_ignores_case_witness :
  classify EXTENSION_MAP (extension_of "Holiday.JPG")
  = classify EXTENSION_MAP (extension_of "holiDAY.jpg").
Proof.
  apply (classify_ignores_case EXTENSION_MAP "Holiday.JPG" "holiDAY.jpg").
  vm_compute. reflexivity.
Defined.

Lemma string_app_assoc (s t u : string) : ((s +:+ t) +:+ u = s +:+ (t +:+ u))%string.
Proof. induction s as [|a s IH]; [done|]. by rewrite !string_app_cons, IH. Qed.

Lemma rfind_app (c : ascii) (s t : string) :
  rfind c (s +:+ t) =
  match rfind c t with
  | Some i => Some (String.length s + i)
  | None => rfind c s
  end.
Proof.
  induction s as [|a s IH].
  - change ("" +:+ t)%string with t. by destruct (rfind c t).
  - rewrite string_app_cons. simpl. rewrite IH. by destruct (rfind c t).
Qed.

Lemma all_eq_app (c : ascii) (s t : string) :
  all_eq c (s +:+ t) = all_eq c s && all_eq c t.
Proof.
  induction s as [|a s IH]; [done|].
  rewrite string_app_cons. simpl. rewrite IH. by rewrite andb_assoc.
Qed.

Lemma substring_app_within (i n : nat) (s t : string) :
  i + n ≤ String.length s →
  String.substring i n (s +:+ t) = String.substring i n s.
Proof.
  revert i n. induction s as [|a s IH]; intros i n Hin.
  - simpl in Hin. assert (i = 0 ∧ n = 0) as [-> ->] by lia. by destruct t.
  - rewrite string_app_cons. destruct i as [|i]; simpl in *.
    + destruct n as [|n]; [done|]. f_equal. apply IH. lia.
    + apply IH. lia.
Qed.

Lemma substring_app_over (i n : nat) (s t : string) :
  i ≤ String.length s → String.length s ≤ i + n →
  String.substring i n (s +:+ t)
  = (String.substring i (String.length s - i) s
     +:+ String.substring 0 (i + n - String.length s) t)%string.
Proof.
  revert i n. induction s as [|a s IH]; intros i n Hi Hn.
  - simpl in Hi. assert (i = 0) as -> by lia. simpl.
    change ("" +:+ t)%string with t. by rewrite Nat.sub_0_r.
  - rewrite string_app_cons. destruct i as [|i]; simpl in *.
    + destruct n as [|n]; [lia|]. rewrite string_app_cons. f_equal.
      rewrite (IH 0 n) by lia. by rewrite Nat.sub_0_r.
    + apply IH; lia.
Qed.

Lemma length_substring_0 (d : nat) (s : string) :
  d ≤ String.length s → String.length (String.substring 0 d s) = d.
Proof.
  revert d. induction s as [|a s IH]; intros [|d] Hd; simpl in *; try done; try lia.
  rewrite IH; lia.
Qed.

Lemma rfind_cons_None (c a : ascii) (s : string) :
  a ≠ c → rfind c s = None → rfind c (String a s) = None.
Proof.
  intros Hne Hs. simpl. rewrite Hs. by destruct (Ascii.eqb_spec a c).
Qed.

(** A character that is no digit does not occur in a number. *)
Lemma rfind_pretty_go (c : ascii) (x : N) (s : string) :
  (∀ d, pretty_N_char d ≠ c) → rfind c s = None → rfind c (pretty_N_go x s) = None.
Proof.
  intros Hc. revert s. induction (N.lt_wf_0 x) as [x _ IH]; intros s Hs.
  assert (x = 0 ∨ 0 < x)%N as [->|Hx] by lia; [by rewrite pretty_N_go_0|].
  rewrite pretty_N_go_step by done. apply IH; [by apply N.div_lt|].
  by apply rfind_cons_None.
Qed.

Lemma rfind_pretty (c : ascii) (n : nat) :
  (∀ d, pretty_N_char d ≠ c) → rfind c (pretty n) = None.
Proof.
  intros Hc. unfold pretty, pretty_nat, pretty, pretty_N.
  case_decide; [|by apply rfind_pretty_go].
  apply rfind_cons_None; [apply (Hc 0%N) | done].
Qed.

Lemma rfind_numbered (c : ascii) (k : nat) :
  c = "."%char ∨ c = "/"%char →
  rfind c ("(" +:+ pretty k +:+ ")") = None.
Proof.
  intros Hc.
  assert (∀ d, pretty_N_char d ≠ c) as Hdigit.
  { intros d. unfold pretty_N_char. destruct Hc as [-> | ->]; by repeat case_match. }
  change ("(" +:+ pretty k +:+ ")")%string with (String "(" (pretty k +:+ ")")).
  apply rfind_cons_None; [by destruct Hc as [-> | ->]|].
  rewrite rfind_app, (rfind_cons_None c ")" ""); [by apply rfind_pretty| |done].
  by destruct Hc as [-> | ->].
Qed.

(** Putting [mid], which has neither dot nor separator and is not made
    of dots, between the two parts [os.path.splitext] gives leaves the
    extension the extension. *)
Lemma splitext_insert (s mid : string) :
  rfind "." mid = None → rfind "/" mid = None → all_eq "." mid = false →
  splitext ((splitext s).1 +:+ mid +:+ (splitext s).2)
  = ((splitext s).1 +:+ mid, (splitext s).2)%string.
Proof.
  intros Hmid_dot Hmid_sep Hmid.
  destruct (splitext s) as [base ext] eqn:Hsplit. simpl.
  unfold splitext in Hsplit.
  set (fi := match rfind "/" s with Some sepIndex => S sepIndex | None => 0 end) in *.
  destruct (rfind "." s) as [d|] eqn:Hdot.
  - pose proof (rfind_lt _ _ _ Hdot) as Hd.
    destruct (fi <=? d) eqn:Hfi; simpl in Hsplit.
    + destruct (all_eq "." (slice fi d s)) eqn:Hdots; simpl in Hsplit.
      * (* the dots before it are all there is: no extension *)
        injection Hsplit as <- <-. rewrite string_app_nil_r.
        unfold splitext. rewrite !rfind_app, Hmid_dot, Hmid_sep, Hdot.
        fold fi. rewrite Hfi. unfold slice in *.
        rewrite substring_app_within by (apply Nat.leb_le in Hfi; lia).
        by rewrite Hdots.
      * (* the extension starts at [d] *)
        injection Hsplit as <- <-. unfold slice in *.
        rewrite Nat.sub_0_r in *.
        set (base := String.substring 0 d s).
        set (ext := String.substring d (String.length s - d) s).
        assert (String.length base = d) as Hbase by (apply length_substring_0; lia).
        assert ((base +:+ ext)%string = s) as Happ by (apply substring_split; lia).
        apply Nat.leb_le in Hfi.
        assert (rfind "." ext = Some 0 ∧ rfind "/" ext = None ∧ rfind "/" base = rfind "/" s)
          as (Hext_dot & Hext_sep & Hbase_sep).
        { pose proof Hdot as Hdot'. rewrite <-Happ, rfind_app in Hdot'.
          assert (rfind "/" s = rfind "/" (base +:+ ext)) as Hsep by (by rewrite Happ).
          rewrite rfind_app in Hsep.
          split_and!.
          - destruct (rfind "." ext) as [i|].
            + injection Hdot' as Hi. f_equal. lia.
            + apply rfind_lt in Hdot'. lia.
          - destruct (rfind "/" ext) as [i|]; [|done].
            exfalso. unfold fi in Hfi. rewrite Hsep in Hfi. lia.
          - destruct (rfind "/" ext) as [i|]; [|done].
            exfalso. unfold fi in Hfi. rewrite Hsep in Hfi. lia. }
        unfold splitext.
        rewrite !rfind_app, Hext_dot, Hext_sep, Hmid_sep, Hbase_sep. fold fi.
        rewrite Hbase.
        assert ((fi <=? d + (String.length mid + 0)) = true) as -> by (apply Nat.leb_le; lia).
        unfold slice.
        rewrite (substring_app_over fi) by lia.
        rewrite all_eq_app, Hbase.
        replace (fi + (d + (String.length mid + 0) - fi) - d) with (String.length mid) by lia.
        rewrite substring_app_l, Hmid, andb_false_r. simpl.
        rewrite <-string_app_assoc, Nat.sub_0_r.
        replace (d + (String.length mid + 0)) with (String.length (base +:+ mid))
          by (rewrite string_length_app; lia).
        rewrite substring_app_l, substring_app_r, string_length_app.
        replace (String.length (base +:+ mid) + String.length ext - String.length (base +:+ mid))
          with (String.length ext) by lia.
        by rewrite substring_all.
    + injection Hsplit as <- <-. rewrite string_app_nil_r.
      unfold splitext. rewrite !rfind_app, Hmid_dot, Hmid_sep, Hdot.
      fold fi. by rewrite Hfi.
  - injection Hsplit as <- <-. rewrite string_app_nil_r.
    unfold splitext. by rewrite !rfind_app, Hmid_dot, Hdot.
Qed.

(** The numbered names keep the extension: the name get_unique_path
    makes of [filename] for any counter has the extension of [filename]
    (the number goes before it), and so its category. *)
Theorem candidate_keeps_extension (filename : string) (k : nat) :
  (splitext (candidate filename k)).2 = (splitext filename).2
  ∧ extension_of (candidate filename k) = extension_of filename.
Proof.
  assert ((splitext (candidate filename k)).2 = (splitext filename).2) as Hext.
  { destruct k as [|k]; [done|]. unfold candidate.
    pose proof (splitext_insert filename ("(" +:+ pretty (S k) +:+ ")")) as Hins.
    destruct (splitext filename) as [base ext]. simpl in *.
    rewrite <-!string_app_assoc in Hins. rewrite <-!string_app_assoc.
    rewrite Hins; [done|by apply rfind_numbered; auto..|done]. }
  split; [done|]. unfold extension_of. by rewrite Hext.
Qed.

(** ** What a rescan leaves behind *)

(** After a rescan that returned and reported no failure nothing is left
    to sort: every entry of [DOWNLOADS_DIR] is a directory, a hidden
    name or a name of no category. *)
Theorem sort_files_leaves_nothing_to_sort (w w1 : world) :
  faithful w →
  sort_files w = (Ok tt, w1) →
  failures (stdout w1) = failures (stdout w) →
  ∃ m1, disk w1 = Some (Dir m1) ∧ ∀ x, is_Some (m1 !! x) → inert m1 x.
Proof.
  destruct w as [[[data|m]|] ls r out]; unfold faithful; simpl; intros Hls; [done| |done].
  change (World (Some (Dir m)) ls r out) with (rootw ls m r out).
  rewrite sort_files_run.
  destruct (sort_files_loop_run ls r (ls m) m out) as (res & m' & lines & Hran & ->).
  intros [= -> <-]. simpl. rewrite failures_app. intros Hquiet.
  exists m'. split; [done|].
  eapply ran_settles; [done | done | lia |].
  intros x Hx. left. rewrite Hls. by apply keys_elem_of.
Qed.

Lemma sort_files_leaves_nothing_to_sort_witness :
  let w := world0 (<["a.png" := File "one"]> (<["b.pdf" := File "two"]>
                     (<["notes" := File "three"]> ∅))) in
  ∃ m1, disk (sort_files w).2 = Some (Dir m1) ∧ ∀ x, is_Some (m1 !! x) → inert m1 x.
Proof.
  intros w. apply (sort_files_leaves_nothing_to_sort w (sort_files w).2).
  - intros m. reflexivity.
  - vm_compute. reflexivity.
  - vm_compute. reflexivity.
Defined.

Section demand.
Variable r : syscall → option oserror.
Implicit Types (m : gmap string node) (g x : string).

Lemma stepped_creates g m res m1 lines x :
  stepped r g m res m1 lines → m !! x = None → is_Some (m1 !! x) →
  hidden g = false ∧ classify EXTENSION_MAP (extension_of g) = Some x.
Proof.
  intros Hstep Hx Hx1.
  destruct Hstep as [_|cg res0 lines0 res m1 lines _ Hshown Hcg Hplaced Hprinted].
  { rewrite Hx in Hx1. by destruct Hx1. }
  assert (∀ m0, ensured r cg m m0 → is_Some (m0 !! x) → x = cg) as Hnew.
  { intros m0 [[_ ->]|(_ & _ & ->)] Hx0.
    - rewrite Hx in Hx0. by destruct Hx0.
    - destruct (decide (cg = x)) as [->|Hne]; [done|].
      rewrite lookup_insert_ne, Hx in Hx0 by done. by destruct Hx0. }
  destruct Hplaced as [e _ _|m1 e Hens _|m1 dg n kg Hens Hcg1 _ _ _ _ _].
  - rewrite Hx in Hx1. by destruct Hx1.
  - by rewrite (Hnew m1 Hens Hx1).
  - destruct (decide (cg = x)) as [->|Hne]; [done|].
    rewrite lookup_insert_ne in Hx1 by done.
    rewrite (Hnew m1 Hens); [done|].
    destruct (decide (g = x)) as [->|Hgx]; [rewrite lookup_delete_eq in Hx1; by destruct Hx1|].
    by rewrite lookup_delete_ne in Hx1.
Qed.

Lemma ran_creates names m res m1 lines x :
  ran r names m res m1 lines → m !! x = None → is_Some (m1 !! x) →
  ∃ g, g ∈ names ∧ hidden g = false
       ∧ classify EXTENSION_MAP (extension_of g) = Some x.
Proof.
  induction 1 as [m|g names m m1 l1 res m2 l2 Hstep Hran IH|g names m e m1 l1 Hstep];
    intros Hx Hx2.
  - rewrite Hx in Hx2. by destruct Hx2.
  - destruct (decide (is_Some (m1 !! x))) as [Hx1|Hx1].
    + exists g. split; [by left|]. by eapply stepped_creates.
    + apply eq_None_not_Some in Hx1.
      destruct (IH Hx1 Hx2) as (g' & Hin & Hg'). exists g'. split; [by right | done].
  - exists g. split; [by left|]. by eapply stepped_creates.
Qed.

End demand.

(** Directories are created on demand only: an entry [DOWNLOADS_DIR]
    has after the rescan and had not before is the category of a listed
    name that does not start with a dot. *)
Theorem sort_files_creates_on_demand (w : world) (m : gmap string node) :
  disk w = Some (Dir m) →
  ∃ m', disk (sort_files w).2 = Some (Dir m')
        ∧ ∀ c, m !! c = None → is_Some (m' !! c) →
            ∃ f, f ∈ listing w m ∧ hidden f = false
                 ∧ classify EXTENSION_MAP (extension_of f) = Some c.
Proof.
  destruct w as [dsk ls r out]. simpl. intros ->.
  change (World (Some (Dir m)) ls r out) with (rootw ls m r out).
  rewrite sort_files_run.
  destruct (sort_files_loop_run ls r (ls m) m out) as (res & m' & lines & Hran & ->).
  exists m'. split; [done|]. intros c. by eapply ran_creates.
Qed.

Lemma sort_files_creates_on_demand_witness :
  let m : gmap string node := <["song.mp3" := File "x"]> (<["notes" := File "y"]> ∅) in
  ∃ m', disk (sort_files (world0 m)).2 = Some (Dir m')
        ∧ ∀ c, m !! c = None → is_Some (m' !! c) →
            ∃ f, f ∈ listing (world0 m) m ∧ hidden f = false
                 ∧ classify EXTENSION_MAP (extension_of f) = Some c.
Proof.
  intros m. apply (sort_files_creates_on_demand (world0 m) m). reflexivity.
Defined.
